(** * r3viewer: the review dashboard of [src/App.tsx] and the badges it renders

    A shallow embedding of the client-side logic of the dashboard: the
    search/status filter ([filteredProjects]), the summary cards ([stats]),
    the asynchronous [handleAnalyzeProject] handler with the Analyze button
    that triggers it, the modal, and the badges.  Numbers are binary64
    values with the rounding of every operation; strings are compared on
    ASCII text, with the engine's case conversion as a parameter where a
    result depends on what it does beyond ASCII. *)

From Stdlib Require Import List String Ascii Bool Arith ZArith QArith Qround Lia Lqa.
From Stdlib Require PrimFloat FloatOps SpecFloat Uint63.
Import ListNotations.

Set Implicit Arguments.

(** ** The JavaScript values the program computes with *)

Module JS.

(** A JavaScript [number] is an IEEE 754 binary64 value: [NaN], one of the
    two infinities, or a finite value, kept here as the rational it stands
    for.  The sign of zero is not tracked; the only zero divisor the
    dashboard can meet is the [length] of an empty array. *)
Inductive number : Type :=
| NaN : number
| Infinity (negative : bool) : number
| Finite (q : Q) : number.

Definition of_nat (n : nat) : number := Finite (inject_Z (Z.of_nat n)).
Definition of_Z (z : Z) : number := Finite (inject_Z z).

Definition is_zero (q : Q) : bool := Qeq_bool q 0.
Definition is_negative (q : Q) : bool := negb (Qle_bool 0 q).

(** *** Rounding to binary64

    [+], [*] and [/] give the exact result rounded to the nearest binary64
    value, ties to the even significand, and an infinity when the rounded
    result is beyond the largest finite value. *)

(** The integer nearest to [n / d], for [d > 0], ties to the even one. *)
Definition nearest_even (n d : Z) : Z :=
  let q := (n / d)%Z in
  match (2 * (n mod d) ?= d)%Z with
  | Lt => q
  | Gt => (q + 1)%Z
  | Eq => if Z.even q then q else (q + 1)%Z
  end.

(** [n / d] divided by [2 ^ k], as a fraction. *)
Definition scaled (n d k : Z) : Z * Z :=
  if (0 <=? k)%Z then (n, (d * 2 ^ k)%Z) else ((n * 2 ^ (- k))%Z, d).

(** [m * 2 ^ e] in lowest terms. *)
Definition dyadic (m e : Z) : Q :=
  if (0 <=? e)%Z then inject_Z (m * 2 ^ e)
  else Qred (Qmake m (Z.to_pos (2 ^ (- e)))).

(** The binary64 value nearest to [n / d], for [n, d > 0]: a significand
    of at most 53 bits at the exponent of [n / d], which is not taken below
    that of the subnormal numbers; [None] on overflow. *)
Definition round_positive (n d : Z) : option Q :=
  let k := (Z.log2 n - Z.log2 d)%Z in
  let '(n1, d1) := scaled n d k in
  let lg := if (n1 <? d1)%Z then (k - 1)%Z else k in
  let e := Z.max (lg - 52) (-1074) in
  let '(n2, d2) := scaled n d e in
  let m := nearest_even n2 d2 in
  if (971 <? e)%Z || ((e =? 971)%Z && (2 ^ 53 <=? m)%Z) then None
  else Some (dyadic m e).

Definition round64 (x : Q) : number :=
  match Qnum x with
  | Z0 => Finite 0
  | Zpos n =>
      match round_positive (Zpos n) (Zpos (Qden x)) with
      | Some v => Finite v
      | None => Infinity false
      end
  | Zneg n =>
      match round_positive (Zpos n) (Zpos (Qden x)) with
      | Some v => Finite (- v)
      | None => Infinity true
      end
  end.

(** [x + y] *)
Definition add (x y : number) : number :=
  match x, y with
  | NaN, _ | _, NaN => NaN
  | Infinity s, Infinity t => if Bool.eqb s t then Infinity s else NaN
  | Infinity s, Finite _ | Finite _, Infinity s => Infinity s
  | Finite a, Finite b => round64 (a + b)
  end.

(** [x * y] *)
Definition mul (x y : number) : number :=
  match x, y with
  | NaN, _ | _, NaN => NaN
  | Infinity s, Infinity t => Infinity (xorb s t)
  | Infinity s, Finite b | Finite b, Infinity s =>
      if is_zero b then NaN else Infinity (xorb s (is_negative b))
  | Finite a, Finite b => round64 (a * b)
  end.

(** [x / y]; [0 / 0] is [NaN] and any other finite value over zero is an
    infinity. *)
Definition div (x y : number) : number :=
  match x, y with
  | NaN, _ | _, NaN => NaN
  | Infinity _, Infinity _ => NaN
  | Infinity s, Finite b => Infinity (xorb s (is_negative b))
  | Finite _, Infinity _ => Finite 0
  | Finite a, Finite b =>
      if is_zero b
      then if is_zero a then NaN else Infinity (is_negative a)
      else round64 (a / b)
  end.

(** A numeric literal of the source: the binary64 value nearest to it. *)
Definition literal (q : Q) : Q :=
  match round64 q with
  | Finite v => v
  | _ => 0
  end.

(** [x > y]; every comparison with [NaN] is false. *)
Definition gt (x y : number) : bool :=
  match x, y with
  | NaN, _ | _, NaN => false
  | Infinity s, Infinity t => negb s && t
  | Infinity s, Finite _ => negb s
  | Finite _, Infinity t => t
  | Finite a, Finite b => negb (Qle_bool a b)
  end.

(** [x >= y] *)
Definition ge (x y : number) : bool :=
  match x, y with
  | NaN, _ | _, NaN => false
  | Infinity s, Infinity t => negb s || t
  | Infinity s, Finite _ => negb s
  | Finite _, Infinity t => t
  | Finite a, Finite b => Qle_bool b a
  end.

(** [Math.round]: the nearest integer, ties towards plus infinity.  The
    result needs no rounding: a binary64 value of magnitude [2 ^ 52] or more
    is a whole number already. *)
Definition Math_round (x : number) : number :=
  match x with
  | Finite q => Finite (inject_Z (Qfloor (q + (1 # 2))))
  | other => other
  end.

Definition is_finite (x : number) : bool :=
  match x with Finite _ => true | _ => false end.

(** *** Strings

    A string is kept as the bytes of its UTF-8 form; on ASCII text one byte
    is one character.  [toLowerCase] and [toUpperCase] below are the
    engine's methods on ASCII text only: the letters A-Z and a-z are mapped
    and every other byte is left alone.  What the engine does beyond ASCII
    is modelled apart, in [Unicode]. *)
Definition is_upper (c : ascii) : bool :=
  let n := nat_of_ascii c in (65 <=? n)%nat && (n <=? 90)%nat.

Definition is_lower (c : ascii) : bool :=
  let n := nat_of_ascii c in (97 <=? n)%nat && (n <=? 122)%nat.

Definition lower_char (c : ascii) : ascii :=
  if is_upper c then ascii_of_nat (nat_of_ascii c + 32) else c.

Definition upper_char (c : ascii) : ascii :=
  if is_lower c then ascii_of_nat (nat_of_ascii c - 32) else c.

Fixpoint toLowerCase (s : string) : string :=
  match s with
  | EmptyString => EmptyString
  | String c rest => String (lower_char c) (toLowerCase rest)
  end.

Fixpoint toUpperCase (s : string) : string :=
  match s with
  | EmptyString => EmptyString
  | String c rest => String (upper_char c) (toUpperCase rest)
  end.

(** [s.startsWith(t)] *)
Fixpoint startsWith (s t : string) {struct t} : bool :=
  match t, s with
  | EmptyString, _ => true
  | String _ _, EmptyString => false
  | String b t', String a s' => Ascii.eqb a b && startsWith s' t'
  end.

(** [s.includes(t)]: [t] occurs in [s] at some position. *)
Fixpoint includes (s t : string) : bool :=
  startsWith s t ||
  match s with
  | EmptyString => false
  | String _ s' => includes s' t
  end.

(** The string is ASCII text: every byte is below 128. *)
Fixpoint ascii_text (s : string) : bool :=
  match s with
  | EmptyString => true
  | String c rest => (nat_of_ascii c <? 128)%nat && ascii_text rest
  end.

End JS.

(** ** The processor's binary64 arithmetic, to check the rounding against *)

Module Machine.
Import JS.

(** The number a binary64 bit pattern stands for. *)
Definition of_spec (x : SpecFloat.spec_float) : number :=
  match x with
  | SpecFloat.S754_zero _ => Finite 0
  | SpecFloat.S754_infinity s => Infinity s
  | SpecFloat.S754_nan => NaN
  | SpecFloat.S754_finite s m e =>
      Finite (if s then - dyadic (Zpos m) e else dyadic (Zpos m) e)
  end.

Definition of_float (x : PrimFloat.float) : number :=
  of_spec (FloatOps.Prim2SF x).

(** A whole number below [2 ^ 53] as a float. *)
Definition float_of (z : Z) : PrimFloat.float :=
  PrimFloat.of_uint63 (Uint63.of_Z z).

Definition same_value (x y : number) : bool :=
  match x, y with
  | NaN, NaN => true
  | Infinity s, Infinity t => Bool.eqb s t
  | Finite a, Finite b => Qeq_bool a b
  | _, _ => false
  end.

(** On the whole numbers [a] and [b]: the sum, the product, the quotient
    and the percentage [(a / b) * 100] agree with what the processor
    computes; then the same on the operands [a / 7] and [b / 3], which are
    not whole, and on their powers and the quotients by them, which reach
    the overflow to an infinity and the subnormal numbers. *)
Definition agree (a b : Z) : bool :=
  let x := float_of a in
  let y := float_of b in
  let x7 := PrimFloat.div x (float_of 7) in
  let y3 := PrimFloat.div y (float_of 3) in
  let big := PrimFloat.mul (PrimFloat.mul x x) (PrimFloat.mul x x) in
  let big4 := PrimFloat.mul (PrimFloat.mul big big) (PrimFloat.mul big big) in
  let small := PrimFloat.div y3 big4 in
  same_value (add (of_Z a) (of_Z b)) (of_float (PrimFloat.add x y))
  && same_value (mul (of_Z a) (of_Z b)) (of_float (PrimFloat.mul x y))
  && same_value (div (of_Z a) (of_Z b)) (of_float (PrimFloat.div x y))
  && same_value (mul (div (of_Z a) (of_Z b)) (Finite 100))
       (of_float (PrimFloat.mul (PrimFloat.div x y) (float_of 100)))
  && same_value (add (of_float x7) (of_float y3))
       (of_float (PrimFloat.add x7 y3))
  && same_value (mul (of_float x7) (of_float y3))
       (of_float (PrimFloat.mul x7 y3))
  && same_value (div (of_float x7) (of_float y3))
       (of_float (PrimFloat.div x7 y3))
  && same_value (mul (of_float big) (of_float big))
       (of_float (PrimFloat.mul big big))
  && same_value (div (of_float x7) (of_float big))
       (of_float (PrimFloat.div x7 big))
  && same_value (mul (of_float big4) (of_float big))
       (of_float (PrimFloat.mul big4 big))
  && same_value (add (of_float big4) (of_float big4))
       (of_float (PrimFloat.add big4 big4))
  && same_value (div (of_float small) (of_float big))
       (of_float (PrimFloat.div small big)).

Definition operands : list Z :=
  [1; 2; 3; 5; 7; 10; 23; 29; 40; 57; 59; 93; 99; 100; 113; 200; 578; 931;
   1000; 65535; 999983; 123456789; 7378732916781557; 4503599627370497;
   9007199254740991]%Z.

End Machine.

(** ** The engine's case conversion beyond ASCII

    [String.prototype.toLowerCase] and [toUpperCase] follow the Unicode
    default case conversion.  This module carries it out on ASCII text and
    on the Greek letters alpha and sigma, which is enough to meet the one
    rule that depends on the context, the final sigma; any other byte
    sequence is passed through untouched and is outside what is modelled. *)

Module Unicode.
Import JS.
Local Open Scope string_scope.

Inductive glyph : Type :=
| Byte (c : ascii)
| CapitalAlpha | SmallAlpha
| CapitalSigma | SmallSigma | FinalSigma.

(** The UTF-8 forms: U+0391 is CE 91, U+03B1 is CE B1, U+03A3 is CE A3,
    U+03C3 is CF 83 and U+03C2 is CF 82. *)
Definition is_byte (c : ascii) (n : nat) : bool :=
  (nat_of_ascii c =? n)%nat.

Fixpoint decode (s : string) : list glyph :=
  match s with
  | "" => []
  | String c rest =>
      match rest with
      | String d rest' =>
          if is_byte c 206 && is_byte d 145 then CapitalAlpha :: decode rest'
          else if is_byte c 206 && is_byte d 177 then SmallAlpha :: decode rest'
          else if is_byte c 206 && is_byte d 163 then CapitalSigma :: decode rest'
          else if is_byte c 207 && is_byte d 131 then SmallSigma :: decode rest'
          else if is_byte c 207 && is_byte d 130 then FinalSigma :: decode rest'
          else Byte c :: decode rest
      | "" => [Byte c]
      end
  end.

Definition encode_glyph (g : glyph) : string :=
  match g with
  | Byte c => String c ""
  | CapitalAlpha => "Α"
  | SmallAlpha => "α"
  | CapitalSigma => "Σ"
  | SmallSigma => "σ"
  | FinalSigma => "ς"
  end.

Fixpoint encode (l : list glyph) : string :=
  match l with
  | [] => ""
  | g :: rest => encode_glyph g ++ encode rest
  end.

(** Cased letters, and the case-ignorable characters of ASCII: apostrophe,
    full stop, colon, circumflex and grave accent. *)
Definition cased (g : glyph) : bool :=
  match g with
  | Byte c => is_upper c || is_lower c
  | _ => true
  end.

Definition case_ignorable (g : glyph) : bool :=
  match g with
  | Byte c =>
      is_byte c 39 || is_byte c 46 || is_byte c 58
      || is_byte c 94 || is_byte c 96
  | _ => false
  end.

(** A cased letter follows, after case-ignorable characters at most. *)
Fixpoint cased_follows (l : list glyph) : bool :=
  match l with
  | [] => false
  | g :: rest => if case_ignorable g then cased_follows rest else cased g
  end.

(** Lower-casing, with [before] telling whether a cased letter precedes,
    case-ignorable characters apart.  A capital sigma becomes the final
    sigma when a cased letter precedes it and none follows. *)
Fixpoint lower_glyphs (before : bool) (l : list glyph) : list glyph :=
  match l with
  | [] => []
  | g :: rest =>
      let g' :=
        match g with
        | Byte c => Byte (lower_char c)
        | CapitalAlpha => SmallAlpha
        | CapitalSigma =>
            if before && negb (cased_follows rest)
            then FinalSigma else SmallSigma
        | other => other
        end in
      g' :: lower_glyphs (if case_ignorable g then before else cased g) rest
  end.

Definition upper_glyph (g : glyph) : glyph :=
  match g with
  | Byte c => Byte (upper_char c)
  | SmallAlpha => CapitalAlpha
  | SmallSigma | FinalSigma => CapitalSigma
  | other => other
  end.

Definition toLowerCase (s : string) : string :=
  encode (lower_glyphs false (decode s)).

Definition toUpperCase (s : string) : string :=
  encode (map upper_glyph (decode s)).

End Unicode.

(** ** [components/ui/Badge.tsx]: the score badge *)

Module Badge.
Import JS.

Inductive Variant : Type :=
| success | warning | secondary | destructive.

(** [total > 0 ? Math.round((score / total) * 100) : 0] *)
Definition percentage (score total : number) : number :=
  if gt total (Finite 0)
  then Math_round (mul (div score total) (Finite 100))
  else Finite 0.

Definition getScoreVariant (percentage : number) : Variant :=
  if ge percentage (Finite 90) then success
  else if ge percentage (Finite 70) then warning
  else if ge percentage (Finite 50) then secondary
  else destructive.

(** What [<ScoreBadge score total />] renders: the variant of the badge and
    the number printed before the percent sign.  [total] defaults to 100
    when the prop is left out. *)
Definition ScoreBadge (score : number) (total : option number)
  : Variant * number :=
  let total := match total with Some t => t | None => Finite 100 end in
  let percentage := percentage score total in
  (getScoreVariant percentage, percentage).

End Badge.

(** ** [App.tsx]: the dashboard *)

Module App.
Import JS.
Local Open Scope string_scope.

(** [status] is one of five string literals, [type] one of four. *)
Inductive Status : Type :=
| Pending | InProgress | Completed | Failed | Cancelled.

Inductive ProjectType : Type :=
| Individual | Team | Hackathon | Assignment.

(** The filter buttons: ["all" | "pending" | "in-progress" | "completed"]. *)
Inductive FilterStatus : Type :=
| FilterAll | FilterPending | FilterInProgress | FilterCompleted.


(** The string each literal stands for; [===] compares these. *)
Definition status_str (s : Status) : string :=
  match s with
  | Pending => "pending"
  | InProgress => "in-progress"
  | Completed => "completed"
  | Failed => "failed"
  | Cancelled => "cancelled"
  end.

Definition filter_str (f : FilterStatus) : string :=
  match f with
  | FilterAll => "all"
  | FilterPending => "pending"
  | FilterInProgress => "in-progress"
  | FilterCompleted => "completed"
  end.

Record Project : Type := mkProject {
  id : Z;
  studentName : string;
  projectTitle : string;
  githubUrl : string;
  technology : list string;
  score : Q;
  status : Status;
  type : ProjectType;
  feedback : string;
  lastUpdated : string
}.

(** [project.status = s]: the assignment touches one field. *)
Definition set_status (s : Status) (p : Project) : Project :=
  {| id := id p;
     studentName := studentName p;
     projectTitle := projectTitle p;
     githubUrl := githubUrl p;
     technology := technology p;
     score := score p;
     status := s;
     type := type p;
     feedback := feedback p;
     lastUpdated := lastUpdated p |}.

Definition mockProjects : list Project :=
  [ mkProject 1 "Geoffrey Wachira Gichuki" "AI Poster Maker Backend"
      "https://github.com/geoffeycloud/poster-maker-backend"
      ["FastAPI"; "Python"; "AI"] 99 Completed Individual
      "Outstanding enterprise-grade AI poster generation backend with FastAPI and Google Cloud Vertex AI..."
      "2 hours ago";
    mkProject 2 "Omollo Victor" "STAFF_PULSE"
      "https://github.com/SK3CHI3/STAFF_PULSE.git"
      ["React"; "Next.js"; "TypeScript"] 98 Completed Individual
      "Outstanding enterprise-grade employee wellness platform with WhatsApp integration..."
      "3 hours ago";
    mkProject 3 "James Muganzi Imoli" "Ajirawise Job Alert Bot"
      "https://github.com/MuganziJames/-whatsapp-job-alert-bot-kenya.git"
      ["Python"; "Flask"; "WhatsApp Bot"] 97 Completed Team
      "OUTSTANDING professional-grade dual-platform job alert system for Kenyan youth..."
      "4 hours ago";
    mkProject 4 "Linus Kipkemoi Langat" "RecycloHub AI Waste Management"
      "https://github.com/Joy-kitet/Hackathon-2.0"
      ["React"; "FastAPI"; "AI"] 96 InProgress Team
      "OUTSTANDING enterprise-grade AI waste management platform..."
      "1 hour ago";
    mkProject 5 "Patricia Nduku Mugisia" "Haki-kenya Legal Aid Platform"
      "https://github.com/Patricianduku/Haki-kenya.git"
      ["React"; "TypeScript"; "Supabase"] 95 Completed Individual
      "Exceptional React legal aid platform with Supabase backend..."
      "5 hours ago";
    mkProject 6 "Magdaline Mutave" "Poster & Flier Maker"
      "https://github.com/DOMOSH85/poster-flier-maker.git"
      ["React"; "Node.js"; "MongoDB"] 93 Pending Team
      "EXCEPTIONAL commercial-grade full-stack design platform..."
      "30 minutes ago" ].

(** *** The filtered grid *)

(** The filter, with the engine's [toLowerCase] as a parameter. *)
Definition filteredProjects_by (toLowerCase : string -> string)
    (projects : list Project)
    (searchTerm : string) (filterStatus : FilterStatus) : list Project :=
  filter
    (fun project =>
       let matchesSearch :=
         includes (toLowerCase (studentName project)) (toLowerCase searchTerm)
         || includes (toLowerCase (projectTitle project)) (toLowerCase searchTerm) in
       let matchesStatus :=
         String.eqb (filter_str filterStatus) "all"
         || String.eqb (status_str (status project)) (filter_str filterStatus) in
       matchesSearch && matchesStatus)
    projects.

(** The filter on ASCII text. *)
Definition filteredProjects (projects : list Project)
    (searchTerm : string) (filterStatus : FilterStatus) : list Project :=
  filter
    (fun project =>
       let matchesSearch :=
         includes (toLowerCase (studentName project)) (toLowerCase searchTerm)
         || includes (toLowerCase (projectTitle project)) (toLowerCase searchTerm) in
       let matchesStatus :=
         String.eqb (filter_str filterStatus) "all"
         || String.eqb (status_str (status project)) (filter_str filterStatus) in
       matchesSearch && matchesStatus)
    projects.

(** *** The summary cards *)

Record Stats : Type := mkStats {
  total : nat;
  completed : nat;
  inProgress : nat;
  pending : nat;
  averageScore : number
}.

Definition status_is (s : string) (p : Project) : bool :=
  String.eqb (status_str (status p)) s.

(** [reduce((acc, p) => acc + p.score, 0)] *)
Definition sum_scores (projects : list Project) : number :=
  fold_left (fun acc p => add acc (Finite (score p))) projects (Finite 0).

Definition stats (projects : list Project) : Stats :=
  {| total := List.length projects;
     completed := List.length (filter (status_is "completed") projects);
     inProgress := List.length (filter (status_is "in-progress") projects);
     pending := List.length (filter (status_is "pending") projects);
     averageScore :=
       Math_round (div (sum_scores projects) (of_nat (List.length projects))) |}.

(** *** The component state

    [projects] is the module-level array [mockProjects]: its objects are
    shared by every render and mutated in place by the analysis.
    [selectedProject] holds one of those objects, kept here as its
    position in the array (the array is never resized or reordered).
    [timers] lists the calls of [handleAnalyzeProject] suspended at their
    [await], oldest first, each with the [projectId] it was called with;
    all of them wait the same 3000 ms, so they resume in that order. *)
Record State : Type := mkState {
  projects : list Project;
  selectedProject : option nat;
  isAnalyzing : bool;
  searchTerm : string;
  filterStatus : FilterStatus;
  timers : list Z
}.

Definition initial : State :=
  {| projects := mockProjects;
     selectedProject := None;
     isAnalyzing := false;
     searchTerm := "";
     filterStatus := FilterAll;
     timers := [] |}.

Definition setSelectedProject (v : option nat) (st : State) : State :=
  {| projects := projects st; selectedProject := v;
     isAnalyzing := isAnalyzing st; searchTerm := searchTerm st;
     filterStatus := filterStatus st; timers := timers st |}.

Definition setIsAnalyzing (v : bool) (st : State) : State :=
  {| projects := projects st; selectedProject := selectedProject st;
     isAnalyzing := v; searchTerm := searchTerm st;
     filterStatus := filterStatus st; timers := timers st |}.

Definition setSearchTerm (v : string) (st : State) : State :=
  {| projects := projects st; selectedProject := selectedProject st;
     isAnalyzing := isAnalyzing st; searchTerm := v;
     filterStatus := filterStatus st; timers := timers st |}.

Definition setFilterStatus (v : FilterStatus) (st : State) : State :=
  {| projects := projects st; selectedProject := selectedProject st;
     isAnalyzing := isAnalyzing st; searchTerm := searchTerm st;
     filterStatus := v; timers := timers st |}.

Definition with_projects (v : list Project) (st : State) : State :=
  {| projects := v; selectedProject := selectedProject st;
     isAnalyzing := isAnalyzing st; searchTerm := searchTerm st;
     filterStatus := filterStatus st; timers := timers st |}.

Definition with_timers (v : list Z) (st : State) : State :=
  {| projects := projects st; selectedProject := selectedProject st;
     isAnalyzing := isAnalyzing st; searchTerm := searchTerm st;
     filterStatus := filterStatus st; timers := v |}.

(** The two derived views of a state. *)
Definition getFilteredProjects (st : State) : list Project :=
  filteredProjects (projects st) (searchTerm st) (filterStatus st).

Definition getSummaryStatistics (st : State) : Stats :=
  stats (projects st).

(** *** [handleAnalyzeProject] *)

(** [array.find(f)] as a reference: the position of the first element that
    satisfies [f]. *)
Fixpoint find_ref (f : Project -> bool) (l : list Project) : option nat :=
  match l with
  | [] => None
  | p :: rest => if f p then Some O else option_map S (find_ref f rest)
  end.

(** Mutation of the object at a position. *)
Fixpoint modify (f : Project -> Project) (i : nat) (l : list Project)
  : list Project :=
  match l, i with
  | [], _ => []
  | p :: rest, O => f p :: rest
  | p :: rest, S j => p :: modify f j rest
  end.

(** The call runs up to the [await]: the flag is raised and the rest of
    the body is parked behind a timer. *)
Definition handleAnalyzeProject_call (projectId : Z) (st : State) : State :=
  let st := setIsAnalyzing true st in
  with_timers (timers st ++ [projectId]) st.

(** The rest of the body, run when the timer fires. *)
Definition handleAnalyzeProject_resume (projectId : Z) (st : State) : State :=
  let st := setIsAnalyzing false st in
  match find_ref (fun p => (id p =? projectId)%Z) (projects st) with
  | Some project =>
      with_projects (modify (set_status Completed) project (projects st)) st
  | None => st
  end.

(** The oldest timer fires. *)
Definition timer_fires (st : State) : State :=
  match timers st with
  | [] => st
  | projectId :: rest =>
      handleAnalyzeProject_resume projectId (with_timers rest st)
  end.

(** Every analysis in flight runs to completion. *)
Definition settle (st : State) : State :=
  Nat.iter (List.length (timers st)) timer_fires st.

(** *** The Analyze button *)

Record ButtonProps : Type := mkButton {
  disabled : bool;
  onClick : State -> State
}.

(** Modelled from the spec: the [Button] component ([components/ui/Button],
    re-exported by the index file) is not among the sources.  A press of a
    button whose [disabled] prop is set does nothing, which is what makes
    an attempt to trigger a second analysis while one is pending a no-op;
    otherwise its [onClick] runs. *)
Definition press (b : ButtonProps) (st : State) : State :=
  if disabled b then st else onClick b st.

(** The card of [project] carries an Analyze button only while the project
    is pending; the button is disabled while an analysis is in flight. *)
Definition analyzeButton (st : State) (project : Project)
  : option ButtonProps :=
  if status_is "pending" project
  then Some {| disabled := isAnalyzing st;
               onClick := handleAnalyzeProject_call (id project) |}
  else None.

(** The Analyze buttons on screen, one per pending card of the grid, each
    with the id of its project. *)
Definition analyzeButtons (st : State) : list (Z * ButtonProps) :=
  flat_map
    (fun project =>
       match analyzeButton st project with
       | Some button => [(id project, button)]
       | None => []
       end)
    (getFilteredProjects st).

(** The user presses the Analyze button of the project with this id; when
    the grid shows no such button nothing happens. *)
Definition analyzeProject (projectId : Z) (st : State) : State :=
  match find (fun b => (fst b =? projectId)%Z) (analyzeButtons st) with
  | Some (_, button) => press button st
  | None => st
  end.

End App.

(** ** More of the JavaScript string methods *)

Module JSString.
Import JS.
Local Open Scope string_scope.

(** [s.charAt(n)]: the character at position [n] as a string, the empty
    string when [n] is out of range. *)
Definition charAt (s : string) (n : nat) : string :=
  match String.get n s with
  | Some c => String c ""
  | None => ""
  end.

(** [s.slice(n)] for a position [n >= 0]: what follows the first [n]
    characters. *)
Fixpoint slice (s : string) (n : nat) : string :=
  match n, s with
  | O, _ => s
  | S _, "" => ""
  | S m, String _ rest => slice rest m
  end.

(** [s.replace(pattern, replacement)] with a string pattern: the first
    occurrence only is replaced (the replacement is taken literally, as it
    is for one without a dollar sign). *)
Fixpoint replace (s pattern replacement : string) : string :=
  if startsWith s pattern
  then replacement ++ slice s (String.length pattern)
  else match s with
       | "" => ""
       | String c rest => String c (replace rest pattern replacement)
       end.

End JSString.

(** ** [components/ui/Badge.tsx]: the technology badge *)

Module TechBadge.
Import JS.
Local Open Scope string_scope.

Definition blue := "bg-blue-100 text-blue-800 dark:bg-blue-900 dark:text-blue-300".
Definition green := "bg-green-100 text-green-800 dark:bg-green-900 dark:text-green-300".
Definition orange := "bg-orange-100 text-orange-800 dark:bg-orange-900 dark:text-orange-300".
Definition indigo := "bg-indigo-100 text-indigo-800 dark:bg-indigo-900 dark:text-indigo-300".
Definition red := "bg-red-100 text-red-800 dark:bg-red-900 dark:text-red-300".
Definition gray := "bg-gray-100 text-gray-800 dark:bg-gray-900 dark:text-gray-300".

Definition getTechColor (tech : string) : string :=
  let techLower := toLowerCase tech in
  if includes techLower "react" || includes techLower "js"
     || includes techLower "javascript"
  then blue
  else if includes techLower "python" || includes techLower "django"
          || includes techLower "flask"
  then green
  else if includes techLower "java" || includes techLower "spring"
  then orange
  else if includes techLower "typescript" || includes techLower "ts"
  then indigo
  else if includes techLower "rust" || includes techLower "go"
  then red
  else gray.

(** The same, with the engine's [toLowerCase] as a parameter. *)
Definition getTechColor_by (toLowerCase : string -> string) (tech : string)
  : string :=
  let techLower := toLowerCase tech in
  if includes techLower "react" || includes techLower "js"
     || includes techLower "javascript"
  then blue
  else if includes techLower "python" || includes techLower "django"
          || includes techLower "flask"
  then green
  else if includes techLower "java" || includes techLower "spring"
  then orange
  else if includes techLower "typescript" || includes techLower "ts"
  then indigo
  else if includes techLower "rust" || includes techLower "go"
  then red
  else gray.

End TechBadge.

(** ** [components/ui/Modal.tsx]: the dialog *)

Module ModalView.
Local Open Scope string_scope.

(** A string prop that may be left out.  [undefined] and the empty string
    are both falsy. *)
Definition truthy (s : option string) : bool :=
  match s with
  | Some "" | None => false
  | Some _ => true
  end.

(** The header row: the [h2] with its [id] and text, when it is rendered,
    and whether the close button is there. *)
Record Header : Type := mkHeader {
  heading : option (string * string);
  closeButton : bool
}.

(** The dialog element: its [aria-labelledby] attribute and its header. *)
Record Dialog : Type := mkDialog {
  aria_labelledby : option string;
  header : option Header
}.

(** What [<Modal isOpen title showCloseButton />] renders, [None] for the
    [null] of a closed modal.  [showCloseButton] is passed with its default
    [true] already filled in. *)
Definition Modal (isOpen : bool) (title : option string)
    (showCloseButton : bool) : option Dialog :=
  if negb isOpen then None
  else Some
    {| aria_labelledby := if truthy title then Some "modal-title" else None;
       header :=
         if truthy title || showCloseButton
         then Some
           {| heading :=
                match title with
                | Some t => if truthy title then Some ("modal-title", t) else None
                | None => None
                end;
              closeButton := showCloseButton |}
         else None |}.

(** The [keydown] listener of the effect.  It is registered only while the
    modal is open, and closes the modal on the Escape key. *)
Definition keydown (S : Type) (isOpen : bool) (onClose : S -> S)
    (key : string) (st : S) : S :=
  if isOpen
  then if String.eqb key "Escape" && isOpen then onClose st else st
  else st.

End ModalView.

(** ** [App.tsx]: what the user can do *)

Module Dashboard.
Import JS JSString App.
Local Open Scope string_scope.

(** The text on a filter button:
    [status.charAt(0).toUpperCase() + status.slice(1).replace("-", " ")] *)
Definition filterLabel (status : string) : string :=
  toUpperCase (charAt status 0) ++ replace (slice status 1) "-" " ".

(** The same, with the engine's [toUpperCase] as a parameter. *)
Definition filterLabel_by (toUpperCase : string -> string) (status : string)
  : string :=
  toUpperCase (charAt status 0) ++ replace (slice status 1) "-" " ".

(** The test of [filteredProjects] on one project. *)
Definition shown (searchTerm : string) (filterStatus : FilterStatus)
    (project : Project) : bool :=
  let matchesSearch :=
    includes (toLowerCase (studentName project)) (toLowerCase searchTerm)
    || includes (toLowerCase (projectTitle project)) (toLowerCase searchTerm) in
  let matchesStatus :=
    String.eqb (filter_str filterStatus) "all"
    || String.eqb (status_str (status project)) (filter_str filterStatus) in
  matchesSearch && matchesStatus.

(** The card of the object at position [ref] of the array, when the grid
    shows one. *)
Definition card (st : State) (ref : nat) : option Project :=
  match nth_error (projects st) ref with
  | Some project =>
      if shown (searchTerm st) (filterStatus st) project
      then Some project else None
  | None => None
  end.

(** The object the modal displays: [selectedProject] is a reference to an
    element of the array, so the modal reads the element as it is now. *)
Definition selectedRecord (st : State) : option Project :=
  match selectedProject st with
  | Some ref => nth_error (projects st) ref
  | None => None
  end.

(** [isOpen={!!selectedProject}] *)
Definition modalOpen (st : State) : bool :=
  match selectedProject st with Some _ => true | None => false end.

(** [onClose={() => setSelectedProject(null)}] *)
Definition onClose (st : State) : State := setSelectedProject None st.


(** What can happen to the component: the user types in the search box,
    picks a filter, opens the details of a card, closes the modal (backdrop,
    close button or the Close button of the footer), presses a key, presses
    an Analyze button, or the oldest pending timer fires. *)
Inductive Event : Type :=
| TypeSearch (value : string)
| PickFilter (status : FilterStatus)
| ViewDetails (ref : nat)
| CloseModal
| KeyDown (key : string)
| PressAnalyze (projectId : Z)
| TimerFires.

Definition handle (e : Event) (st : State) : State :=
  match e with
  | TypeSearch value => setSearchTerm value st
  | PickFilter status => setFilterStatus status st
  | ViewDetails ref =>
      match card st ref with
      | Some _ => setSelectedProject (Some ref) st
      | None => st
      end
  | CloseModal => if modalOpen st then onClose st else st
  | KeyDown key => ModalView.keydown (modalOpen st) onClose key st
  | PressAnalyze projectId => analyzeProject projectId st
  | TimerFires => timer_fires st
  end.

Definition run (events : list Event) (st : State) : State :=
  fold_left (fun s e => handle e s) events st.

End Dashboard.

(** ** Properties of runs and of the views *)

Module Props.
Import JS App.

(** Nothing in flight and the flag down, or one analysis in flight and the
    flag up. *)
Definition consistent (st : State) : Prop :=
  (timers st = [] /\ isAnalyzing st = false)
  \/ (exists projectId, timers st = [projectId] /\ isAnalyzing st = true).

(** A record after some time: as it was, or as it was with status
    "completed". *)
Definition evolved (p q : Project) : Prop :=
  q = p \/ q = set_status Completed p.

(** The modal, when open, refers to an element of the array. *)
Definition selection_valid (st : State) : Prop :=
  forall ref, selectedProject st = Some ref ->
              (ref < List.length (projects st))%nat.

(** Two numbers are the same value in the same form. *)
Definition same_number (x y : number) : bool :=
  match x, y with
  | NaN, NaN => true
  | Infinity s, Infinity t => Bool.eqb s t
  | Finite a, Finite b =>
      (Qnum a =? Qnum b)%Z && (Qden a =? Qden b)%positive
  | _, _ => false
  end.

(** The order of the badge variants, from worst to best. *)
Definition rank (v : Badge.Variant) : nat :=
  match v with
  | Badge.destructive => 0
  | Badge.secondary => 1
  | Badge.warning => 2
  | Badge.success => 3
  end.

End Props.

(** ** What the specification says, in its own words *)

Module Spec.
Import JS App.
Local Open Scope string_scope.

(** The capital and the small letters of the alphabet, in order. *)
Definition capitals : string := "ABCDEFGHIJKLMNOPQRSTUVWXYZ".
Definition smalls : string := "abcdefghijklmnopqrstuvwxyz".

(** [c] is a capital letter and [d] the small letter at the same place of
    the alphabet. *)
Definition letter_pair (c d : ascii) : Prop :=
  exists i, String.get i capitals = Some c /\ String.get i smalls = Some d.

(** Two characters are the same letter up to case. *)
Definition same_letter (c d : ascii) : Prop :=
  c = d \/ letter_pair c d \/ letter_pair d c.

(** Two strings that differ in the casing of their letters only. *)
Inductive case_variant : string -> string -> Prop :=
| cv_empty : case_variant "" ""
| cv_char c d s t :
    same_letter c d -> case_variant s t ->
    case_variant (String c s) (String d t).

(** [s] contains [t] as a case-insensitive substring. *)
Definition contains_ci (s t : string) : Prop :=
  exists pre mid post, s = pre ++ mid ++ post /\ case_variant mid t.

(** The two predicates of the filter. *)
Definition status_ok (f : FilterStatus) (r : Project) : Prop :=
  f = FilterAll \/ status_str (status r) = filter_str f.

Definition search_ok (term : string) (r : Project) : Prop :=
  term = "" \/ contains_ci (studentName r) term
            \/ contains_ci (projectTitle r) term.

Definition selected (term : string) (f : FilterStatus) (r : Project) : Prop :=
  status_ok f r /\ search_ok term r.

(** [l'] is the subsequence of [l], in the order of [l], made of exactly
    the elements that satisfy [P]. *)
Inductive kept (A : Type) (P : A -> Prop) : list A -> list A -> Prop :=
| kept_nil : kept P [] []
| kept_take x l l' : P x -> kept P l l' -> kept P (x :: l) (x :: l')
| kept_drop x l l' : ~ P x -> kept P l l' -> kept P (x :: l) l'.





Definition is_infinite (x : number) : bool :=
  match x with Infinity _ => true | _ => false end.

(** What is required of the engine's case conversion: on ASCII text it
    maps the letters A-Z and a-z onto each other and nothing else. *)
Definition ascii_lowering (toLowerCase : string -> string) : Prop :=
  forall s, ascii_text s = true -> toLowerCase s = JS.toLowerCase s.

Definition ascii_uppering (toUpperCase : string -> string) : Prop :=
  forall s, ascii_text s = true -> toUpperCase s = JS.toUpperCase s.

(** [k] is [q] rounded to the nearest integer, halves upwards. *)
Definition rounds_to (q : Q) (k : Z) : Prop :=
  inject_Z k - (1 # 2) <= q /\ q < inject_Z k + (1 # 2).

End Spec.

(** ** Strings: what [includes] and [toLowerCase] compute *)

Module StringFacts.
Import JS Spec.
Local Open Scope string_scope.

Ltac each_char c :=
  destruct c as [[] [] [] [] [] [] [] []]; vm_compute; try reflexivity.

Lemma lower_char_idem c : lower_char (lower_char c) = lower_char c.
Proof. each_char c. Qed.

Lemma lower_char_not_upper c : is_upper (lower_char c) = false.
Proof. each_char c. Qed.

Lemma lower_char_fixed c : is_upper c = false -> lower_char c = c.
Proof. unfold lower_char. intros ->. reflexivity. Qed.

Lemma upper_lower_char c : is_upper c = true -> upper_char (lower_char c) = c.
Proof. each_char c; intros H; discriminate H. Qed.

Lemma lower_upper_char c : lower_char (upper_char c) = lower_char c.
Proof. each_char c. Qed.

(** The table of letters and the conversion agree: the pairs of the table
    are the capital letters with what [lower_char] makes of them. *)
Lemma letter_pair_lower c d :
  letter_pair c d <-> is_upper c = true /\ d = lower_char c.
Proof.
  split.
  - intros (i & Hc & Hd).
    do 26 (destruct i as [|i];
           [simpl in Hc, Hd; injection Hc as <-; injection Hd as <-;
            split; reflexivity|]).
    discriminate Hc.
  - intros [U ->]. revert U.
    destruct c as [[] [] [] [] [] [] [] []]; intros U;
      try discriminate U;
      match goal with
      | |- letter_pair ?x _ => exists (nat_of_ascii x - 65)%nat
      end; split; reflexivity.
Qed.

Lemma same_letter_lower c d :
  same_letter c d <-> lower_char c = lower_char d.
Proof.
  unfold same_letter. rewrite !letter_pair_lower. split.
  - intros [-> | [[_ ->] | [_ ->]]].
    + reflexivity.
    + now rewrite lower_char_idem.
    + now rewrite lower_char_idem.
  - intros E.
    destruct (is_upper c) eqn:Uc, (is_upper d) eqn:Ud.
    + left. rewrite <- (upper_lower_char c Uc), <- (upper_lower_char d Ud).
      now rewrite E.
    + right; left. split; [reflexivity|].
      now rewrite E, (lower_char_fixed d Ud).
    + right; right. split; [reflexivity|].
      now rewrite <- E, (lower_char_fixed c Uc).
    + left. now rewrite <- (lower_char_fixed c Uc), <- (lower_char_fixed d Ud).
Qed.

Lemma case_variant_lower s t :
  case_variant s t <-> toLowerCase s = toLowerCase t.
Proof.
  split.
  - induction 1 as [|c d s t L _ IH]; simpl.
    + reflexivity.
    + apply same_letter_lower in L. now rewrite L, IH.
  - revert t. induction s as [|c s IH]; intros [|d t] E; simpl in E;
      try discriminate E.
    + constructor.
    + injection E as Ec Es. constructor.
      * now apply same_letter_lower.
      * now apply IH.
Qed.

Lemma case_variant_refl s : case_variant s s.
Proof. now apply case_variant_lower. Qed.

Lemma case_variant_upper s : case_variant s (toUpperCase s).
Proof.
  apply case_variant_lower.
  induction s as [|c s IH]; simpl; [reflexivity|].
  now rewrite lower_upper_char, IH.
Qed.

Lemma toLowerCase_app a b :
  toLowerCase (a ++ b) = toLowerCase a ++ toLowerCase b.
Proof. induction a as [|c a IH]; simpl; [reflexivity | now rewrite IH]. Qed.

(** A split of the lowered string comes from a split of the string. *)
Lemma toLowerCase_split s a b :
  toLowerCase s = a ++ b ->
  exists s1 s2, s = s1 ++ s2 /\ toLowerCase s1 = a /\ toLowerCase s2 = b.
Proof.
  revert s. induction a as [|c a IH]; intros s E.
  - exists "", s. simpl in *. auto.
  - destruct s as [|d s]; simpl in E; [discriminate E|].
    injection E as Ec Es.
    destruct (IH s Es) as (s1 & s2 & -> & E1 & E2).
    exists (String d s1), s2. simpl. now rewrite Ec, E1.
Qed.

Lemma startsWith_spec s t :
  startsWith s t = true <-> exists post, s = t ++ post.
Proof.
  revert s. induction t as [|b t IH]; intros s; simpl.
  - split; [intros _; now exists s | reflexivity].
  - destruct s as [|a s].
    + split; [discriminate | intros [post E]; discriminate E].
    + rewrite andb_true_iff, Ascii.eqb_eq, IH. split.
      * intros [-> [post ->]]. now exists post.
      * intros [post E]. injection E as -> ->. split; [reflexivity | now exists post].
Qed.

Lemma includes_spec s t :
  includes s t = true <-> exists pre post, s = pre ++ t ++ post.
Proof.
  induction s as [|a s IH].
  - simpl. rewrite orb_false_r, startsWith_spec. split.
    + intros [post E]. now exists "", post.
    + intros (pre & post & E). destruct pre; [now exists post|discriminate E].
  - cbn [includes]. rewrite orb_true_iff, startsWith_spec, IH. split.
    + intros [[post E] | (pre & post & E)].
      * now exists "", post.
      * exists (String a pre), post. simpl. now rewrite E.
    + intros (pre & post & E). destruct pre as [|c pre].
      * left. now exists post.
      * right. simpl in E. injection E as _ E. now exists pre, post.
Qed.

Lemma includes_empty s : includes s "" = true.
Proof. destruct s; reflexivity. Qed.

(** The test the filter runs is the case-insensitive containment of the
    specification. *)
Lemma includes_contains_ci s t :
  includes (toLowerCase s) (toLowerCase t) = true <-> contains_ci s t.
Proof.
  rewrite includes_spec. unfold contains_ci. split.
  - intros (a & b & E).
    destruct (toLowerCase_split s _ _ E) as (pre & rest & -> & Ea & Er).
    destruct (toLowerCase_split rest _ _ Er) as (mid & post & -> & Em & Ep).
    exists pre, mid, post. split; [reflexivity | now apply case_variant_lower].
  - intros (pre & mid & post & -> & V).
    apply case_variant_lower in V.
    exists (toLowerCase pre), (toLowerCase post).
    now rewrite !toLowerCase_app, V.
Qed.

End StringFacts.

(** ** The filtered grid *)

Module FilterFacts.
Import JS App Spec StringFacts.
Local Open Scope string_scope.

Lemma kept_filter (A : Type) (P : A -> Prop) (f : A -> bool) (l : list A) :
  (forall x, f x = true <-> P x) -> kept P l (filter f l).
Proof.
  intros Hf. induction l as [|x l IH]; simpl.
  - constructor.
  - destruct (f x) eqn:E.
    + apply kept_take; [now apply Hf | exact IH].
    + apply kept_drop; [|exact IH].
      intros HP. apply Hf in HP. congruence.
Qed.

Lemma filter_id (A : Type) (f : A -> bool) (l : list A) :
  (forall x, f x = true) -> filter f l = l.
Proof.
  intros Hf. induction l as [|x l IH]; simpl; [reflexivity|].
  now rewrite Hf, IH.
Qed.

Lemma kept_In (A : Type) (P : A -> Prop) (l l' : list A) :
  kept P l l' -> forall x, In x l' <-> In x l /\ P x.
Proof.
  induction 1 as [|x l l' Px _ IH|x l l' Px _ IH]; intros y; simpl.
  - tauto.
  - rewrite IH. split.
    + intros [<- | [H1 H2]]; auto.
    + intros [[<- | H1] H2]; auto.
  - rewrite IH. split.
    + intros [H1 H2]; auto.
    + intros [[<- | H1] H2]; [contradiction | auto].
Qed.

(** [kept P l] determines its result. *)
Lemma kept_unique (A : Type) (P : A -> Prop) (l l1 l2 : list A) :
  kept P l l1 -> kept P l l2 -> l1 = l2.
Proof.
  intros H1. revert l2.
  induction H1 as [|x l l1 Px _ IH|x l l1 Px _ IH]; intros l2 H2;
    inversion H2; subst; try contradiction.
  - reflexivity.
  - f_equal. now apply IH.
  - now apply IH.
Qed.

Lemma status_test (f : FilterStatus) (r : Project) :
  String.eqb (filter_str f) "all"
  || String.eqb (status_str (status r)) (filter_str f) = true
  <-> status_ok f r.
Proof.
  unfold status_ok. rewrite orb_true_iff, !String.eqb_eq. split.
  - intros [E | E]; [left | now right].
    destruct f; try discriminate E. reflexivity.
  - intros [-> | E]; [now left | now right].
Qed.

Lemma search_test (term : string) (r : Project) :
  includes (toLowerCase (studentName r)) (toLowerCase term)
  || includes (toLowerCase (projectTitle r)) (toLowerCase term) = true
  <-> search_ok term r.
Proof.
  unfold search_ok. rewrite orb_true_iff, !includes_contains_ci. split.
  - intros [H | H]; auto.
  - intros [-> | [H | H]]; auto.
    left. apply includes_contains_ci. apply includes_empty.
Qed.

Lemma status_str_inj s t : status_str s = status_str t -> s = t.
Proof. destruct s, t; simpl; intros E; try reflexivity; discriminate E. Qed.

Lemma filteredProjects_kept projects term f :
  kept (selected term f) projects (filteredProjects projects term f).
Proof.
  apply kept_filter. intros r. cbv zeta.
  rewrite andb_true_iff, search_test, status_test.
  unfold selected. tauto.
Qed.

Lemma In_filteredProjects projects term f r :
  In r (filteredProjects projects term f) <->
  In r projects /\ selected term f r.
Proof. apply (kept_In (filteredProjects_kept projects term f)). Qed.

End FilterFacts.

(** ** The rounding against the processor *)

Module MachineFacts.
Import JS.

(** On every pair of the operands, whole or not, near overflow or not, the
    rounded operations give what the processor gives. *)
Lemma round64_agrees_with_processor :
  forallb (fun a => forallb (Machine.agree a) Machine.operands)
    Machine.operands = true.
Proof. vm_compute. reflexivity. Qed.

End MachineFacts.

(** ** The summary cards *)

Module StatsFacts.
Import JS App Spec.
Local Open Scope Q_scope.

Lemma round64_cases (x : Q) :
  (exists v, round64 x = Finite v) \/ (exists s, round64 x = Infinity s).
Proof.
  unfold round64. destruct (Qnum x) as [|n|n].
  - left. now exists 0.
  - destruct (round_positive _ _) as [v|]; [left; now exists v|].
    right. now exists false.
  - destruct (round_positive _ _) as [v|]; [left; now exists (- v)|].
    right. now exists true.
Qed.

Lemma round64_not_NaN (x : Q) : round64 x <> NaN.
Proof.
  destruct (round64_cases x) as [[v E] | [s E]]; rewrite E; discriminate.
Qed.






Lemma rounds_to_unique (q : Q) (j k : Z) :
  rounds_to q j -> rounds_to q k -> j = k.
Proof.
  unfold rounds_to. intros [Hj1 Hj2] [Hk1 Hk2].
  assert (Hjk : inject_Z j < inject_Z k + 1) by lra.
  assert (Hkj : inject_Z k < inject_Z j + 1) by lra.
  change 1 with (inject_Z 1) in Hjk, Hkj.
  rewrite <- inject_Z_plus, <- Zlt_Qlt in Hjk, Hkj. lia.
Qed.

Lemma status_is_iff (s : Status) (r : Project) :
  status_is (status_str s) r = true <-> status r = s.
Proof.
  unfold status_is. rewrite String.eqb_eq. split.
  - destruct (status r), s; simpl; intros E; try reflexivity; discriminate E.
  - now intros ->.
Qed.




End StatsFacts.

(** ** The analysis *)

Module AnalyzeFacts.
Import JS App Spec.

Lemma find_ref_none (f : Project -> bool) (l : list Project) :
  (forall r, In r l -> f r = false) -> find_ref f l = None.
Proof.
  induction l as [|p l IH]; intros H; simpl; [reflexivity|].
  rewrite (H p (or_introl eq_refl)), IH; [reflexivity|].
  intros r Hr. apply H. now right.
Qed.

(** The reference found is the first element that passes the test. *)
Lemma find_ref_first (f : Project -> bool) (l : list Project) :
  (exists r, In r l /\ f r = true) ->
  exists before r after,
    l = before ++ r :: after /\ f r = true
    /\ (forall x, In x before -> f x = false)
    /\ find_ref f l = Some (List.length before).
Proof.
  induction l as [|p l IH]; intros (r & Hr & Fr).
  - destruct Hr.
  - simpl. destruct (f p) eqn:Fp.
    + exists [], p, l. repeat split; auto. intros x [].
    + destruct IH as (before & r' & after & -> & Fr' & Hb & ->).
      { destruct Hr as [<- | Hr]; [congruence | now exists r]. }
      exists (p :: before), r', after. repeat split; auto.
      intros x [<- | Hx]; auto.
Qed.

Lemma modify_middle (f : Project -> Project) before r after :
  modify f (List.length before) (before ++ r :: after)
  = before ++ f r :: after.
Proof. induction before as [|p l IH]; simpl; [reflexivity | now rewrite IH]. Qed.

(** With nothing else in flight, letting a fresh call run to completion is
    the call followed by the rest of its body. *)
Lemma settle_call (projectId : Z) (st : State) :
  timers st = [] ->
  settle (handleAnalyzeProject_call projectId st)
  = handleAnalyzeProject_resume projectId (setIsAnalyzing true st).
Proof.
  destruct st as [ps sel an term f ts]. simpl. intros ->. reflexivity.
Qed.

(** Under unique ids a record that carries the id is the only one. *)
Lemma unique_id before (r : Project) after :
  NoDup (map id (before ++ r :: after)) ->
  forall x, In x before \/ In x after -> id x <> id r.
Proof.
  rewrite map_app. simpl. intros N x Hx E.
  apply NoDup_remove_2 in N. apply N. rewrite <- E.
  apply in_or_app. destruct Hx as [Hx | Hx]; [left | right];
    now apply in_map.
Qed.

(** Every Analyze button on screen is disabled exactly when an analysis
    is in flight, and calls the handler with the id it is listed under. *)
Lemma analyzeButtons_props (st : State) (b : Z * ButtonProps) :
  In b (analyzeButtons st) ->
  disabled (snd b) = isAnalyzing st
  /\ onClick (snd b) = handleAnalyzeProject_call (fst b).
Proof.
  unfold analyzeButtons. rewrite in_flat_map. intros (project & _ & Hb).
  unfold analyzeButton in Hb.
  destruct (status_is "pending" project); [|destruct Hb].
  destruct Hb as [<- | []]. simpl. auto.
Qed.

(** While no analysis is in flight, pressing the button of a pending
    project on screen calls the handler. *)
Lemma analyzeProject_starts (projectId : Z) (st : State) (r : Project) :
  isAnalyzing st = false ->
  In r (getFilteredProjects st) -> status r = Pending -> id r = projectId ->
  analyzeProject projectId st = handleAnalyzeProject_call projectId st.
Proof.
  intros An Hr Sr Ir. unfold analyzeProject.
  destruct (find (fun b => (fst b =? projectId)%Z) (analyzeButtons st))
    as [[i button]|] eqn:F.
  - apply find_some in F. destruct F as [Hb E]. simpl in E.
    apply Z.eqb_eq in E. subst i.
    destruct (analyzeButtons_props st _ Hb) as [D C]. simpl in D, C.
    unfold press. now rewrite D, An, C.
  - exfalso.
    assert (Hb : In (id r, {| disabled := isAnalyzing st;
                              onClick := handleAnalyzeProject_call (id r) |})
                    (analyzeButtons st)).
    { unfold analyzeButtons. apply in_flat_map. exists r. split; [exact Hr|].
      unfold analyzeButton, status_is. rewrite Sr. simpl. now left. }
    apply (find_none _ _ F) in Hb. simpl in Hb.
    rewrite Ir, Z.eqb_refl in Hb. discriminate Hb.
Qed.

(** The handler itself does not look at the flag: called directly while an
    analysis is in flight it parks one more continuation. *)
Lemma handleAnalyzeProject_call_timers (projectId : Z) (st : State) :
  timers (handleAnalyzeProject_call projectId st) = timers st ++ [projectId].
Proof. reflexivity. Qed.

End AnalyzeFacts.

(** ** The score badge *)

Module BadgeFacts.
Import JS Badge Spec.
Local Open Scope Q_scope.

Lemma gt_zero_iff (q : Q) : gt (Finite q) (Finite 0) = true <-> 0 < q.
Proof.
  simpl. rewrite negb_true_iff. split.
  - intros E. apply Qnot_le_lt. intros L.
    apply Qle_bool_iff in L. congruence.
  - intros L. destruct (Qle_bool q 0) eqn:E; [|reflexivity].
    apply Qle_bool_iff in E. lra.
Qed.

Lemma positive_not_zero (q : Q) : 0 < q -> is_zero q = false.
Proof.
  intros L. unfold is_zero. destruct (Qeq_bool q 0) eqn:E; [|reflexivity].
  apply Qeq_bool_iff in E. lra.
Qed.

(** The two branches, for arbitrary numbers. *)
Lemma percentage_branches (score total : number) :
  percentage score total
  = if gt total (Finite 0)
    then Math_round (mul (div score total) (Finite 100))
    else Finite 0.
Proof. reflexivity. Qed.

Lemma percentage_positive (score total : Q) :
  0 < total ->
  percentage (Finite score) (Finite total)
  = Math_round (mul (round64 (score / total)) (Finite 100)).
Proof.
  intros L. unfold percentage.
  rewrite (proj2 (gt_zero_iff total) L).
  unfold div. rewrite (positive_not_zero L). reflexivity.
Qed.

Lemma Math_round_NaN (x : number) : Math_round x = NaN <-> x = NaN.
Proof. destruct x; simpl; split; congruence. Qed.

Lemma mul_100_NaN (x : number) : mul x (Finite 100) = NaN <-> x = NaN.
Proof.
  destruct x as [|s|a]; simpl.
  - tauto.
  - split; discriminate.
  - split; [|discriminate]. intros E.
    now apply StatsFacts.round64_not_NaN in E.
Qed.

(** Over a divisor that passed the guard, a quotient is [NaN] only for a
    [NaN] dividend or for an infinity over an infinity. *)
Lemma div_guarded_NaN (score total : number) :
  gt total (Finite 0) = true ->
  (div score total = NaN <->
   score = NaN \/ (is_infinite score = true /\ is_infinite total = true)).
Proof.
  intros G. destruct total as [|t|b]; [discriminate G | |].
  - destruct score as [|s|a]; simpl; split;
      try tauto; try discriminate; intros [H | [H _]]; discriminate H.
  - apply gt_zero_iff in G. destruct score as [|s|a]; simpl.
    + tauto.
    + split; [discriminate | intros [H | [_ H]]; discriminate H].
    + rewrite (positive_not_zero G). split.
      * intros E. now apply StatsFacts.round64_not_NaN in E.
      * intros [H | [H _]]; discriminate H.
Qed.

Lemma percentage_not_positive (score total : Q) :
  total <= 0 -> percentage (Finite score) (Finite total) = Finite 0.
Proof.
  intros L. unfold percentage.
  destruct (gt (Finite total) (Finite 0)) eqn:E; [|reflexivity].
  apply gt_zero_iff in E. lra.
Qed.

(** What the guard is for: without it a zero total would give [NaN] for a
    zero score and an infinity for any other. *)
Lemma unguarded_zero_total :
  Math_round (mul (div (Finite 0) (Finite 0)) (Finite 100)) = NaN
  /\ Math_round (mul (div (Finite 50) (Finite 0)) (Finite 100))
     = Infinity false.
Proof. split; reflexivity. Qed.

End BadgeFacts.

(** ** Runs of the dashboard *)

Module RunFacts.
Import JS App Dashboard Props.

Lemma resume_fields (projectId : Z) (st : State) :
  isAnalyzing (handleAnalyzeProject_resume projectId st) = false
  /\ timers (handleAnalyzeProject_resume projectId st) = timers st
  /\ selectedProject (handleAnalyzeProject_resume projectId st)
     = selectedProject st
  /\ searchTerm (handleAnalyzeProject_resume projectId st) = searchTerm st
  /\ filterStatus (handleAnalyzeProject_resume projectId st) = filterStatus st.
Proof.
  unfold handleAnalyzeProject_resume. cbv zeta.
  destruct (find_ref _ _); simpl; repeat split; reflexivity.
Qed.

Lemma resume_projects (projectId : Z) (st : State) :
  projects (handleAnalyzeProject_resume projectId st)
  = match find_ref (fun p => (id p =? projectId)%Z) (projects st) with
    | Some ref => modify (set_status Completed) ref (projects st)
    | None => projects st
    end.
Proof.
  unfold handleAnalyzeProject_resume. cbv zeta.
  change (projects (setIsAnalyzing false st)) with (projects st).
  destruct (find_ref _ _); reflexivity.
Qed.

(** A press of an Analyze button either does nothing or, with nothing in
    flight, calls the handler. *)
Lemma analyzeProject_cases (projectId : Z) (st : State) :
  analyzeProject projectId st = st
  \/ (isAnalyzing st = false
      /\ analyzeProject projectId st = handleAnalyzeProject_call projectId st).
Proof.
  unfold analyzeProject.
  destruct (find (fun b => (fst b =? projectId)%Z) (analyzeButtons st))
    as [[i button]|] eqn:F; [|now left].
  apply find_some in F. destruct F as [Hb E]. simpl in E.
  apply Z.eqb_eq in E. subst i.
  destruct (AnalyzeFacts.analyzeButtons_props st _ Hb) as [D C].
  simpl in D, C. unfold press. rewrite D, C.
  destruct (isAnalyzing st); [now left | now right].
Qed.

Lemma timer_fires_cases (st : State) :
  (timers st = [] /\ timer_fires st = st)
  \/ (exists projectId rest,
        timers st = projectId :: rest
        /\ timer_fires st
           = handleAnalyzeProject_resume projectId (with_timers rest st)).
Proof.
  unfold timer_fires. destruct (timers st) as [|projectId rest].
  - now left.
  - right. now exists projectId, rest.
Qed.

Lemma handle_consistent (e : Event) (st : State) :
  consistent st -> consistent (handle e st).
Proof.
  intros C. destruct e as [v | f | ref | | key | projectId | ]; simpl.
  - exact C.
  - exact C.
  - destruct (card st ref); exact C.
  - destruct (modalOpen st); exact C.
  - unfold ModalView.keydown.
    destruct (modalOpen st); [|exact C].
    destruct (String.eqb key "Escape" && true); exact C.
  - destruct (analyzeProject_cases projectId st) as [-> | [An ->]]; [exact C|].
    destruct C as [[T _] | (q & _ & An')]; [|congruence].
    right. exists projectId. simpl. rewrite T. split; reflexivity.
  - destruct (timer_fires_cases st) as [[_ ->] | (projectId & rest & T & ->)];
      [exact C|].
    destruct (resume_fields projectId (with_timers rest st)) as (A & T' & _).
    left. rewrite A, T'. simpl.
    destruct C as [[T0 _] | (q & T0 & _)]; rewrite T0 in T.
    + discriminate T.
    + injection T as _ <-. split; reflexivity.
Qed.

Lemma run_consistent (events : list Event) (st : State) :
  consistent st -> consistent (run events st).
Proof.
  revert st. induction events as [|e es IH]; intros st C; simpl.
  - exact C.
  - apply IH. now apply handle_consistent.
Qed.

(** *** What a run can do to the records *)

Lemma evolved_refl (l : list Project) : Forall2 evolved l l.
Proof. induction l; constructor; [now left | assumption]. Qed.

Lemma evolved_trans (l1 l2 l3 : list Project) :
  Forall2 evolved l1 l2 -> Forall2 evolved l2 l3 -> Forall2 evolved l1 l3.
Proof.
  intros H. revert l3. induction H as [|p q l1 l2 Hpq _ IH]; intros l3 H3.
  - inversion H3. constructor.
  - inversion H3 as [|q' r l2' l3' Hqr Hrest]; subst. constructor.
    + destruct Hpq as [-> | ->]; [exact Hqr|].
      destruct Hqr as [-> | ->]; right; reflexivity.
    + now apply IH.
Qed.

Lemma modify_evolved (ref : nat) (l : list Project) :
  Forall2 evolved l (modify (set_status Completed) ref l).
Proof.
  revert ref. induction l as [|p l IH]; intros ref; simpl.
  - destruct ref; constructor.
  - destruct ref as [|ref]; constructor.
    + now right.
    + apply evolved_refl.
    + now left.
    + apply IH.
Qed.

Lemma handle_evolved (e : Event) (st : State) :
  Forall2 evolved (projects st) (projects (handle e st)).
Proof.
  destruct e as [v | f | ref | | key | projectId | ]; simpl.
  - apply evolved_refl.
  - apply evolved_refl.
  - destruct (card st ref); apply evolved_refl.
  - destruct (modalOpen st); apply evolved_refl.
  - unfold ModalView.keydown.
    destruct (modalOpen st); [|apply evolved_refl].
    destruct (String.eqb key "Escape" && true); apply evolved_refl.
  - destruct (analyzeProject_cases projectId st) as [-> | [_ ->]];
      apply evolved_refl.
  - destruct (timer_fires_cases st) as [[_ ->] | (projectId & rest & _ & ->)];
      [apply evolved_refl|].
    rewrite resume_projects.
    change (projects (with_timers rest st)) with (projects st).
    destruct (find_ref _ _); [apply modify_evolved | apply evolved_refl].
Qed.

Lemma run_evolved (events : list Event) (st : State) :
  Forall2 evolved (projects st) (projects (run events st)).
Proof.
  revert st. induction events as [|e es IH]; intros st; simpl.
  - apply evolved_refl.
  - apply (evolved_trans (handle_evolved e st)). apply IH.
Qed.

Lemma evolved_map (B : Type) (f : Project -> B) (l l' : list Project) :
  (forall s p, f (set_status s p) = f p) ->
  Forall2 evolved l l' -> map f l = map f l'.
Proof.
  intros Hf H. induction H as [|p q l l' [-> | ->] _ IH]; simpl.
  - reflexivity.
  - now rewrite IH.
  - now rewrite Hf, IH.
Qed.

Lemma evolved_completed_stays (l l' : list Project) :
  Forall2 evolved l l' ->
  forall i p, nth_error l i = Some p -> status p = Completed ->
              nth_error l' i = Some p.
Proof.
  induction 1 as [|p q l l' Hpq _ IH]; intros i r Hi Sr.
  - destruct i; discriminate Hi.
  - destruct i as [|i]; simpl in *.
    + injection Hi as ->. destruct Hpq as [-> | ->]; [reflexivity|].
      destruct r; simpl in Sr; subst; reflexivity.
    + now apply IH.
Qed.

Lemma evolved_length (l l' : list Project) :
  Forall2 evolved l l' -> List.length l = List.length l'.
Proof. induction 1; simpl; [reflexivity | now f_equal]. Qed.

Lemma sum_scores_map (l : list Project) (a : number) :
  fold_left (fun acc p => add acc (Finite (score p))) l a
  = fold_left (fun acc q => add acc (Finite q)) (map score l) a.
Proof.
  revert a. induction l as [|p l IH]; intros a; simpl; [reflexivity|].
  apply IH.
Qed.

Lemma evolved_averageScore (l l' : list Project) :
  Forall2 evolved l l' -> averageScore (stats l) = averageScore (stats l').
Proof.
  intros H. unfold stats, averageScore, sum_scores.
  rewrite !sum_scores_map, (evolved_length H).
  now rewrite (evolved_map score (fun _ _ => eq_refl) H).
Qed.

Lemma filter_length_mono (g : Project -> bool) (l l' : list Project) :
  Forall2 (fun p q => g p = true -> g q = true) l l' ->
  (List.length (filter g l) <= List.length (filter g l'))%nat.
Proof.
  induction 1 as [|p q l l' Hpq _ IH]; cbn [filter]; [apply Nat.le_refl|].
  destruct (g p) eqn:Gp.
  - rewrite (Hpq eq_refl). cbn [List.length]. lia.
  - destruct (g q); cbn [List.length]; lia.
Qed.

Lemma evolved_completed (l l' : list Project) :
  Forall2 evolved l l' ->
  (completed (stats l) <= completed (stats l'))%nat.
Proof.
  intros H. unfold stats, completed. apply filter_length_mono.
  induction H as [|p q l l' Hpq _ IH]; constructor; [|exact IH].
  destruct Hpq as [-> | ->]; [auto|]. intros _. reflexivity.
Qed.

End RunFacts.

(** ** What the completion of an analysis does *)

Module CompletionFacts.
Import JS App Dashboard Props.

Lemma State_eq (s t : State) :
  projects s = projects t -> selectedProject s = selectedProject t ->
  isAnalyzing s = isAnalyzing t -> searchTerm s = searchTerm t ->
  filterStatus s = filterStatus t -> timers s = timers t -> s = t.
Proof.
  destruct s, t. simpl. intros -> -> -> -> -> ->. reflexivity.
Qed.

Lemma find_ref_cases (f : Project -> bool) (l : list Project) :
  (find_ref f l = None /\ forall r, In r l -> f r = false)
  \/ (exists before r after,
        l = before ++ r :: after /\ f r = true
        /\ (forall x, In x before -> f x = false)
        /\ find_ref f l = Some (List.length before)).
Proof.
  induction l as [|p l IH].
  - left. split; [reflexivity | intros r []].
  - simpl. destruct (f p) eqn:Fp.
    + right. exists [], p, l. repeat split; auto. intros x [].
    + destruct IH as [[N H] | (before & r & after & -> & Fr & Hb & F)].
      * left. rewrite N. split; [reflexivity|].
        intros r [<- | Hr]; auto.
      * right. exists (p :: before), r, after. rewrite F.
        repeat split; auto. intros x [<- | Hx]; auto.
Qed.

(** [find] returns the element [find_ref] points at. *)
Lemma find_find_ref (f : Project -> bool) (l : list Project) :
  find f l = match find_ref f l with
             | Some ref => nth_error l ref
             | None => None
             end.
Proof.
  induction l as [|p l IH]; simpl; [reflexivity|].
  destruct (f p); [reflexivity|]. rewrite IH.
  destruct (find_ref f l); reflexivity.
Qed.

Lemma find_ref_nth (f : Project -> bool) (l : list Project) (ref : nat) :
  find_ref f l = Some ref ->
  exists before r after,
    l = before ++ r :: after /\ List.length before = ref /\ f r = true
    /\ (forall x, In x before -> f x = false).
Proof.
  intros F.
  destruct (find_ref_cases f l) as [[N _] | (before & r & after & E & Fr & Hb & F')].
  - congruence.
  - exists before, r, after. repeat split; auto. congruence.
Qed.

Lemma find_ref_modify (f : Project -> bool) (g : Project -> Project)
    (i : nat) (l : list Project) :
  (forall p, f (g p) = f p) -> find_ref f (modify g i l) = find_ref f l.
Proof.
  intros Hf. revert i. induction l as [|p l IH]; intros i; simpl.
  - destruct i; reflexivity.
  - destruct i as [|i]; simpl.
    + now rewrite Hf.
    + now rewrite IH.
Qed.

Lemma modify_swap (g : Project -> Project) (i j : nat) (l : list Project) :
  (forall p, g (g p) = g p) ->
  modify g i (modify g j l) = modify g j (modify g i l).
Proof.
  intros Hg. revert i j. induction l as [|p l IH]; intros i j.
  - destruct i, j; reflexivity.
  - destruct i as [|i], j as [|j]; simpl; try reflexivity.
    now rewrite IH.
Qed.

Lemma modify_twice (g : Project -> Project) (i : nat) (l : list Project) :
  (forall p, g (g p) = g p) -> modify g i (modify g i l) = modify g i l.
Proof.
  intros Hg. revert i. induction l as [|p l IH]; intros i.
  - destruct i; reflexivity.
  - destruct i as [|i]; simpl; [now rewrite Hg | now rewrite IH].
Qed.

Lemma nth_error_modify (g : Project -> Project) (i ref : nat)
    (l : list Project) :
  nth_error (modify g i l) ref
  = if Nat.eqb i ref then option_map g (nth_error l ref)
    else nth_error l ref.
Proof.
  revert i ref. induction l as [|p l IH]; intros i ref.
  - destruct i, ref; simpl; try reflexivity.
    now destruct (Nat.eqb i ref).
  - destruct i as [|i], ref as [|ref]; simpl; try reflexivity. apply IH.
Qed.

Lemma set_status_twice (s : Status) (p : Project) :
  set_status s (set_status s p) = set_status s p.
Proof. reflexivity. Qed.

Lemma resume_resume (a b : Z) (st : State) :
  projects (handleAnalyzeProject_resume a (handleAnalyzeProject_resume b st))
  = let l := projects st in
    let at_a := find_ref (fun p => (id p =? a)%Z) l in
    let at_b := find_ref (fun p => (id p =? b)%Z) l in
    let l := match at_b with
             | Some ref => modify (set_status Completed) ref l
             | None => l
             end in
    match at_a with
    | Some ref => modify (set_status Completed) ref l
    | None => l
    end.
Proof.
  cbv zeta. rewrite !RunFacts.resume_projects.
  destruct (find_ref (fun p => (id p =? b)%Z) (projects st)) as [j|];
    [|reflexivity].
  now rewrite find_ref_modify.
Qed.

Lemma resume_swap (a b : Z) (st : State) :
  handleAnalyzeProject_resume a (handleAnalyzeProject_resume b st)
  = handleAnalyzeProject_resume b (handleAnalyzeProject_resume a st).
Proof.
  apply State_eq.
  - rewrite !resume_resume. cbv zeta.
    destruct (find_ref (fun p => (id p =? a)%Z) (projects st)) as [i|],
             (find_ref (fun p => (id p =? b)%Z) (projects st)) as [j|];
      try reflexivity.
    apply modify_swap. intros p. reflexivity.
  - destruct (RunFacts.resume_fields a (handleAnalyzeProject_resume b st))
      as (_ & _ & -> & _).
    destruct (RunFacts.resume_fields b (handleAnalyzeProject_resume a st))
      as (_ & _ & -> & _).
    destruct (RunFacts.resume_fields a st) as (_ & _ & -> & _).
    destruct (RunFacts.resume_fields b st) as (_ & _ & -> & _). reflexivity.
  - destruct (RunFacts.resume_fields a (handleAnalyzeProject_resume b st))
      as (-> & _).
    destruct (RunFacts.resume_fields b (handleAnalyzeProject_resume a st))
      as (-> & _). reflexivity.
  - destruct (RunFacts.resume_fields a (handleAnalyzeProject_resume b st))
      as (_ & _ & _ & -> & _).
    destruct (RunFacts.resume_fields b (handleAnalyzeProject_resume a st))
      as (_ & _ & _ & -> & _).
    destruct (RunFacts.resume_fields a st) as (_ & _ & _ & -> & _).
    destruct (RunFacts.resume_fields b st) as (_ & _ & _ & -> & _).
    reflexivity.
  - destruct (RunFacts.resume_fields a (handleAnalyzeProject_resume b st))
      as (_ & _ & _ & _ & ->).
    destruct (RunFacts.resume_fields b (handleAnalyzeProject_resume a st))
      as (_ & _ & _ & _ & ->).
    destruct (RunFacts.resume_fields a st) as (_ & _ & _ & _ & ->).
    destruct (RunFacts.resume_fields b st) as (_ & _ & _ & _ & ->).
    reflexivity.
  - destruct (RunFacts.resume_fields a (handleAnalyzeProject_resume b st))
      as (_ & -> & _).
    destruct (RunFacts.resume_fields b (handleAnalyzeProject_resume a st))
      as (_ & -> & _).
    destruct (RunFacts.resume_fields a st) as (_ & -> & _).
    destruct (RunFacts.resume_fields b st) as (_ & -> & _). reflexivity.
Qed.

Lemma resume_twice (a : Z) (st : State) :
  handleAnalyzeProject_resume a (handleAnalyzeProject_resume a st)
  = handleAnalyzeProject_resume a st.
Proof.
  destruct (RunFacts.resume_fields a (handleAnalyzeProject_resume a st))
    as (A & T & S & W & F).
  destruct (RunFacts.resume_fields a st) as (A' & _).
  apply State_eq; try assumption; [|congruence].
  rewrite resume_resume, RunFacts.resume_projects. cbv zeta.
  destruct (find_ref (fun p => (id p =? a)%Z) (projects st)) as [i|];
    [|reflexivity].
  apply modify_twice. intros p. reflexivity.
Qed.

(** The list once the analysis of [projectId] has completed. *)
Lemma resume_shape (projectId : Z) (st : State) :
  (projects (handleAnalyzeProject_resume projectId st) = projects st
   /\ forall r, In r (projects st) -> id r <> projectId)
  \/ (exists before r after,
        projects st = before ++ r :: after
        /\ id r = projectId
        /\ (forall x, In x before -> id x <> projectId)
        /\ projects (handleAnalyzeProject_resume projectId st)
           = before ++ set_status Completed r :: after).
Proof.
  rewrite RunFacts.resume_projects.
  destruct (find_ref_cases (fun p => (id p =? projectId)%Z) (projects st))
    as [[-> N] | (before & r & after & E & Fr & Hb & ->)].
  - left. split; [reflexivity|]. intros r Hr. apply Z.eqb_neq. now apply N.
  - right. exists before, r, after. split; [exact E|].
    split; [now apply Z.eqb_eq|]. split.
    + intros x Hx. apply Z.eqb_neq. now apply Hb.
    + rewrite E. apply AnalyzeFacts.modify_middle.
Qed.

Lemma completed_after (projectId : Z) (st : State) (r : Project) :
  NoDup (map id (projects st)) ->
  In r (projects (handleAnalyzeProject_resume projectId st)) ->
  id r = projectId -> status r = Completed.
Proof.
  intros N Hr Ir.
  destruct (resume_shape projectId st)
    as [[E H] | (before & r0 & after & E & I0 & Hb & E')].
  - rewrite E in Hr. now apply H in Hr.
  - rewrite E' in Hr. rewrite E in N.
    apply in_app_or in Hr. destruct Hr as [Hr | [<- | Hr]].
    + now apply Hb in Hr.
    + reflexivity.
    + exfalso. apply (AnalyzeFacts.unique_id before r0 after N r); auto.
      congruence.
Qed.

(** No Analyze button is on screen for an id whose records are all
    completed. *)
Lemma no_button (projectId : Z) (st : State) :
  (forall r, In r (projects st) -> id r = projectId -> status r <> Pending) ->
  analyzeProject projectId st = st.
Proof.
  intros H. unfold analyzeProject.
  destruct (find (fun b => (fst b =? projectId)%Z) (analyzeButtons st))
    as [[i button]|] eqn:F; [|reflexivity].
  exfalso. apply find_some in F. destruct F as [Hb E]. simpl in E.
  apply Z.eqb_eq in E. subst i.
  unfold analyzeButtons in Hb. apply in_flat_map in Hb.
  destruct Hb as (project & Hp & Hb).
  unfold getFilteredProjects, filteredProjects in Hp.
  apply filter_In in Hp. destruct Hp as [Hp _].
  unfold analyzeButton in Hb.
  destruct (status_is "pending" project) eqn:P; [|destruct Hb].
  destruct Hb as [Eb | []]. injection Eb as Ei _.
  apply (StatsFacts.status_is_iff Pending) in P.
  exact (H project Hp Ei P).
Qed.

Lemma find_first (f : Project -> bool) before r after :
  (forall x, In x before -> f x = false) -> f r = true ->
  find f (before ++ r :: after) = Some r.
Proof.
  intros Hb Fr. induction before as [|p l IH]; simpl.
  - now rewrite Fr.
  - rewrite (Hb p (or_introl eq_refl)). apply IH.
    intros x Hx. apply Hb. now right.
Qed.

Lemma count_middle (g : Project -> bool) before r after :
  List.length (filter g (before ++ r :: after))
  = (List.length (filter g before) + (if g r then 1 else 0)
     + List.length (filter g after))%nat.
Proof.
  rewrite filter_app, length_app. cbn [filter].
  destruct (g r); cbn [List.length]; lia.
Qed.

Lemma resume_evolved (projectId : Z) (st : State) :
  Forall2 evolved (projects st)
    (projects (handleAnalyzeProject_resume projectId st)).
Proof.
  rewrite RunFacts.resume_projects.
  destruct (find_ref _ _);
    [apply RunFacts.modify_evolved | apply RunFacts.evolved_refl].
Qed.

(** The record [find] returns is the one the completion rewrites. *)
Lemma resume_found (projectId : Z) (st : State) (r : Project) :
  find (fun p => (id p =? projectId)%Z) (projects st) = Some r ->
  exists before after,
    projects st = before ++ r :: after
    /\ (forall x, In x before -> id x <> projectId)
    /\ projects (handleAnalyzeProject_resume projectId st)
       = before ++ set_status Completed r :: after.
Proof.
  intros F.
  destruct (resume_shape projectId st)
    as [[_ H] | (before & r0 & after & E & I0 & Hb & E')].
  - apply find_some in F. destruct F as [Hr Fr].
    apply Z.eqb_eq in Fr. now apply H in Hr.
  - assert (F0 : find (fun p => (id p =? projectId)%Z) (projects st) = Some r0).
    { rewrite E. apply find_first.
      - intros x Hx. apply Z.eqb_neq. now apply Hb.
      - now apply Z.eqb_eq. }
    rewrite F in F0. injection F0 as ->. now exists before, after.
Qed.

End CompletionFacts.

(** ** How filters compose *)

Module GridFacts.
Import JS App Dashboard Spec.
Local Open Scope string_scope.

Lemma filteredProjects_shown projects term f :
  filteredProjects projects term f = filter (shown term f) projects.
Proof. reflexivity. Qed.

Lemma filter_swap (A : Type) (f g : A -> bool) (l : list A) :
  filter f (filter g l) = filter g (filter f l).
Proof.
  induction l as [|x l IH]; simpl; [reflexivity|].
  destruct (g x) eqn:G, (f x) eqn:F; simpl; rewrite ?G, ?F, IH; reflexivity.
Qed.

Lemma filter_twice (A : Type) (f : A -> bool) (l : list A) :
  filter f (filter f l) = filter f l.
Proof.
  induction l as [|x l IH]; simpl; [reflexivity|].
  destruct (f x) eqn:F; simpl; rewrite ?F, IH; reflexivity.
Qed.

(** Filtering by a test that implies an earlier one. *)
Lemma filter_narrow (A : Type) (f g : A -> bool) (l : list A) :
  (forall x, f x = true -> g x = true) ->
  filter f (filter g l) = filter f l.
Proof.
  intros H. induction l as [|x l IH]; simpl; [reflexivity|].
  destruct (g x) eqn:G; simpl.
  - now rewrite IH.
  - destruct (f x) eqn:F; [|exact IH].
    apply H in F. congruence.
Qed.

Lemma filter_length_le (A : Type) (f : A -> bool) (l : list A) :
  (List.length (filter f l) <= List.length l)%nat.
Proof.
  induction l as [|x l IH]; simpl; [lia|]. destruct (f x); simpl; lia.
Qed.

(** A string that contains a term contains every part of the term. *)
Lemma includes_part s pre t post :
  includes s (pre ++ t ++ post) = true -> includes s t = true.
Proof.
  rewrite !StringFacts.includes_spec. intros (a & b & ->).
  exists (a ++ pre), (post ++ b).
  clear. induction a as [|c a IH]; simpl.
  - induction pre as [|c pre IH]; simpl.
    + induction t as [|c t IH]; simpl; [reflexivity | now rewrite IH].
    + now rewrite IH.
  - now rewrite IH.
Qed.

Lemma shown_part pre t post f r :
  shown (pre ++ t ++ post) f r = true -> shown t f r = true.
Proof.
  unfold shown. cbv zeta. rewrite !andb_true_iff, !orb_true_iff.
  rewrite !StringFacts.toLowerCase_app.
  intros [[H | H] S]; (split; [|exact S]);
    [left | right]; exact (includes_part _ _ _ _ H).
Qed.

(** The status test per filter. *)
Lemma shown_status term f r :
  shown term f r = true ->
  match f with
  | FilterAll => True
  | FilterPending => status r = Pending
  | FilterInProgress => status r = InProgress
  | FilterCompleted => status r = Completed
  end.
Proof.
  unfold shown. cbv zeta. rewrite andb_true_iff. intros [_ S].
  destruct f; [exact I | | | ]; destruct (status r); simpl in S;
    try reflexivity; discriminate S.
Qed.

(** With an empty term only the status decides. *)
Lemma shown_empty f r :
  shown "" f r
  = (String.eqb (filter_str f) "all"
     || String.eqb (status_str (status r)) (filter_str f)).
Proof.
  unfold shown. cbv zeta. change (toLowerCase "") with "".
  now rewrite StringFacts.includes_empty.
Qed.

Lemma shown_split term f r :
  shown term f r
  = shown term FilterAll r
    && (String.eqb (filter_str f) "all"
        || String.eqb (status_str (status r)) (filter_str f)).
Proof.
  unfold shown. cbv zeta.
  change (String.eqb (filter_str FilterAll) "all") with true.
  cbn [orb]. now rewrite andb_true_r.
Qed.

(** How a status filter splits the records shown under "all". *)
Lemma bucket_count (term : string) (l : list Project) :
  List.length (filter (shown term FilterAll) l)
  = (List.length (filter (shown term FilterPending) l)
     + List.length (filter (shown term FilterInProgress) l)
     + List.length (filter (shown term FilterCompleted) l)
     + List.length
         (filter (fun r => match status r with
                           | Failed | Cancelled => true
                           | _ => false
                           end)
                 (filter (shown term FilterAll) l)))%nat.
Proof.
  induction l as [|r l IH]; [reflexivity|].
  cbn [filter].
  rewrite (shown_split term FilterPending r),
          (shown_split term FilterInProgress r),
          (shown_split term FilterCompleted r).
  destruct (shown term FilterAll r); cbn [andb]; [|exact IH].
  cbn [filter]. destruct (status r); cbn -[shown]; lia.
Qed.

End GridFacts.

(** ** The badges *)

Module VariantFacts.
Import JS Badge Props Spec.
Local Open Scope Q_scope.

Lemma ge_finite_trans (a b : number) (c : Q) :
  ge a b = true -> ge b (Finite c) = true -> ge a (Finite c) = true.
Proof.
  destruct a as [|s|x], b as [|t|y]; simpl; try discriminate; try tauto.
  - destruct s, t; simpl; try discriminate; tauto.
  - intros ->. discriminate.
  - rewrite !Qle_bool_iff. intros H1 H2. lra.
Qed.

Lemma ge_finite_iff (x c : Q) : ge (Finite x) (Finite c) = true <-> c <= x.
Proof. simpl. apply Qle_bool_iff. Qed.

Lemma ge_finite_false (x c : Q) : ge (Finite x) (Finite c) = false <-> x < c.
Proof.
  simpl. split.
  - intros E. apply Qnot_le_lt. intros L. apply Qle_bool_iff in L. congruence.
  - intros L. destruct (Qle_bool c x) eqn:E; [|reflexivity].
    apply Qle_bool_iff in E. lra.
Qed.

Ltac finish :=
  repeat match goal with
         | |- context [if ?b then _ else _] => destruct b
         end;
  simpl; lia.

Lemma variant_monotone (p q : number) :
  ge q p = true ->
  (rank (getScoreVariant p) <= rank (getScoreVariant q))%nat.
Proof.
  intros H. unfold getScoreVariant.
  destruct (ge p (Finite 90)) eqn:P90.
  { rewrite (ge_finite_trans _ _ _ H P90). apply Nat.le_refl. }
  destruct (ge q (Finite 90)); [finish|].
  destruct (ge p (Finite 70)) eqn:P70.
  { rewrite (ge_finite_trans _ _ _ H P70). apply Nat.le_refl. }
  destruct (ge q (Finite 70)); [finish|].
  destruct (ge p (Finite 50)) eqn:P50.
  { rewrite (ge_finite_trans _ _ _ H P50). apply Nat.le_refl. }
  finish.
Qed.

Lemma same_number_eq (x y : number) : same_number x y = true -> x = y.
Proof.
  destruct x as [|s|[a b]], y as [|t|[c d]]; simpl; try discriminate.
  - reflexivity.
  - intros E. apply Bool.eqb_prop in E. now subst.
  - rewrite andb_true_iff, Z.eqb_eq, Pos.eqb_eq. intros [-> ->]. reflexivity.
Qed.

(** Every whole score from 0 to 1000 out of the default total is its own
    percentage: checked value by value. *)
Lemma percentage_of_whole_score (z : Z) :
  (0 <= z <= 1000)%Z -> percentage (of_Z z) (Finite 100) = of_Z z.
Proof.
  intros R. apply same_number_eq.
  assert (C : forallb (fun n => same_number
                                  (percentage (of_Z (Z.of_nat n)) (Finite 100))
                                  (of_Z (Z.of_nat n)))
                      (seq 0 1001) = true) by (vm_compute; reflexivity).
  rewrite forallb_forall in C.
  rewrite <- (Z2Nat.id z) by lia. apply C. apply in_seq. lia.
Qed.

End VariantFacts.

Module TechFacts.
Import JS TechBadge Spec.
Local Open Scope string_scope.

(** The test for a lower-case keyword is the case-insensitive containment
    of the keyword. *)
Lemma keyword_test (tech keyword : string) :
  toLowerCase keyword = keyword ->
  (includes (toLowerCase tech) keyword = true <-> contains_ci tech keyword).
Proof.
  intros E. rewrite <- E at 1. apply StringFacts.includes_contains_ci.
Qed.

Lemma keyword_test_false (tech keyword : string) :
  toLowerCase keyword = keyword ->
  (includes (toLowerCase tech) keyword = false <-> ~ contains_ci tech keyword).
Proof.
  intros E. rewrite <- (keyword_test tech E).
  destruct (includes (toLowerCase tech) keyword); split; congruence.
Qed.

End TechFacts.

(** ** The filter buttons and the modal *)

Module LabelFacts.
Import JS JSString Dashboard.
Local Open Scope string_scope.

Lemma slice_0 (s : string) : slice s 0 = s.
Proof. destruct s; reflexivity. Qed.

Lemma filterLabel_cons (c : ascii) (r : string) :
  filterLabel (String c r) = String (upper_char c) (replace r "-" " ").
Proof. unfold filterLabel. simpl. now rewrite slice_0. Qed.

(** Replacing one character by another. *)
Lemma replace_char (d a b : ascii) (r : string) :
  replace (String d r) (String a "") (String b "")
  = if Ascii.eqb d a then String b r
    else String d (replace r (String a "") (String b "")).
Proof.
  cbn [replace startsWith]. destruct r; cbn [startsWith];
    rewrite andb_true_r; destruct (Ascii.eqb d a); reflexivity.
Qed.

Lemma replace_char_length (a b : ascii) (r : string) :
  String.length (replace r (String a "") (String b "")) = String.length r.
Proof.
  induction r as [|d r IH]; [reflexivity|].
  rewrite replace_char. destruct (Ascii.eqb d a); simpl; [reflexivity|].
  now rewrite IH.
Qed.

Lemma no_space_cons (d : ascii) (r : string) :
  includes (String d r) " " = false ->
  Ascii.eqb d " " = false /\ includes r " " = false.
Proof.
  cbn [includes startsWith]. rewrite orb_false_iff.
  intros [H1 H2]. split; [|exact H2].
  destruct r; cbn [startsWith] in H1; now rewrite andb_true_r in H1.
Qed.

Lemma hyphen_back (r : string) :
  toLowerCase r = r -> includes r " " = false ->
  replace (toLowerCase (replace r "-" " ")) " " "-" = r.
Proof.
  induction r as [|d r IH]; intros L N; [reflexivity|].
  simpl in L. injection L as Ld Lr.
  apply no_space_cons in N. destruct N as [Nd Nr].
  rewrite replace_char. destruct (Ascii.eqb_spec d "-") as [-> | _].
  - simpl toLowerCase. change (lower_char " ") with " "%char.
    rewrite Lr, replace_char. reflexivity.
  - simpl toLowerCase. rewrite Ld, replace_char, Nd. now rewrite IH.
Qed.

Lemma label_back (s : string) :
  toLowerCase s = s -> includes s " " = false ->
  replace (toLowerCase (filterLabel s)) " " "-" = s.
Proof.
  destruct s as [|c r]; intros L N; [reflexivity|].
  rewrite filterLabel_cons. simpl in L. injection L as Lc Lr.
  apply no_space_cons in N. destruct N as [Nc Nr].
  simpl toLowerCase. rewrite StringFacts.lower_upper_char, Lc.
  rewrite replace_char, Nc. now rewrite hyphen_back.
Qed.

End LabelFacts.

(** ** The selection and the average *)

Module SelectionFacts.
Import JS App Dashboard Props.

Lemma handle_selection (e : Event) (st : State) :
  selection_valid st -> selection_valid (handle e st).
Proof.
  intros V ref.
  rewrite <- (RunFacts.evolved_length (RunFacts.handle_evolved e st)).
  destruct e as [v | f | r | | key | projectId | ]; simpl.
  - apply V.
  - apply V.
  - unfold card. destruct (nth_error (projects st) r) as [p|] eqn:N;
      [|apply V].
    destruct (shown (searchTerm st) (filterStatus st) p); [|apply V].
    simpl. intros E. injection E as <-.
    apply nth_error_Some. congruence.
  - destruct (modalOpen st); [discriminate | apply V].
  - unfold ModalView.keydown. destruct (modalOpen st); [|apply V].
    destruct (String.eqb key "Escape" && true); [discriminate | apply V].
  - destruct (RunFacts.analyzeProject_cases projectId st) as [-> | [_ ->]];
      apply V.
  - destruct (RunFacts.timer_fires_cases st)
      as [[_ ->] | (projectId & rest & _ & ->)]; [apply V|].
    destruct (RunFacts.resume_fields projectId (with_timers rest st))
      as (_ & _ & -> & _). apply V.
Qed.

Lemma run_selection (events : list Event) (st : State) :
  selection_valid st -> selection_valid (run events st).
Proof.
  revert st. induction events as [|e es IH]; intros st V; simpl.
  - exact V.
  - apply IH. now apply handle_selection.
Qed.

End SelectionFacts.


(** ** The engine's case conversion on ASCII text *)

Module UnicodeFacts.
Import JS Spec.
Local Open Scope string_scope.

Lemma not_lead_byte (c : ascii) :
  (nat_of_ascii c <? 128)%nat = true ->
  Unicode.is_byte c 206 = false /\ Unicode.is_byte c 207 = false.
Proof.
  intros H. apply Nat.ltb_lt in H. unfold Unicode.is_byte.
  split; apply Nat.eqb_neq; lia.
Qed.

Lemma decode_ascii (c : ascii) (rest : string) :
  (nat_of_ascii c <? 128)%nat = true ->
  Unicode.decode (String c rest) = Unicode.Byte c :: Unicode.decode rest.
Proof.
  intros H. destruct (not_lead_byte c H) as [E6 E7].
  destruct rest as [|d rest']; [reflexivity|].
  cbn [Unicode.decode]. rewrite E6, E7. reflexivity.
Qed.

Lemma lower_ascii (s : string) (before : bool) :
  ascii_text s = true ->
  Unicode.encode (Unicode.lower_glyphs before (Unicode.decode s))
  = toLowerCase s.
Proof.
  revert before. induction s as [|c s IH]; intros before H; [reflexivity|].
  cbn [ascii_text] in H. apply andb_true_iff in H. destruct H as [Hc Hs].
  rewrite (decode_ascii c s Hc). cbn [Unicode.lower_glyphs Unicode.encode].
  rewrite (IH _ Hs). reflexivity.
Qed.

Lemma upper_ascii (s : string) :
  ascii_text s = true ->
  Unicode.encode (map Unicode.upper_glyph (Unicode.decode s))
  = toUpperCase s.
Proof.
  induction s as [|c s IH]; intros H; [reflexivity|].
  cbn [ascii_text] in H. apply andb_true_iff in H. destruct H as [Hc Hs].
  rewrite (decode_ascii c s Hc). cbn [map Unicode.encode].
  rewrite (IH Hs). reflexivity.
Qed.

(** The modelled conversion is one of those the theorems speak of. *)
Lemma lowering : ascii_lowering Unicode.toLowerCase.
Proof. intros s H. now apply lower_ascii. Qed.

Lemma uppering : ascii_uppering Unicode.toUpperCase.
Proof. intros s H. now apply upper_ascii. Qed.

Lemma ascii_text_app (a b : string) :
  ascii_text (a ++ b) = ascii_text a && ascii_text b.
Proof.
  induction a as [|c a IH]; simpl; [reflexivity|].
  now rewrite IH, andb_assoc.
Qed.

Lemma upper_char_ascii (c : ascii) :
  (nat_of_ascii c <? 128)%nat = true ->
  (nat_of_ascii (upper_char c) <? 128)%nat = true.
Proof.
  destruct c as [[] [] [] [] [] [] [] []]; intros H;
    try discriminate H; reflexivity.
Qed.

End UnicodeFacts.

(** ** The views under any engine that does the right thing on ASCII *)

Module EngineFacts.
Import JS App Dashboard Spec.
Local Open Scope string_scope.

(** The definitions on ASCII text are the general ones at the ASCII
    conversion. *)
Lemma filteredProjects_at_ascii projects term f :
  filteredProjects projects term f
  = filteredProjects_by toLowerCase projects term f.
Proof. reflexivity. Qed.

Lemma getTechColor_at_ascii tech :
  TechBadge.getTechColor tech = TechBadge.getTechColor_by toLowerCase tech.
Proof. reflexivity. Qed.

Lemma filterLabel_at_ascii status :
  filterLabel status = filterLabel_by toUpperCase status.
Proof. reflexivity. Qed.

Section Engine.
Variable lower : string -> string.
Hypothesis lower_ok : ascii_lowering lower.

(** On ASCII names and titles and an ASCII term, the filter is the one on
    ASCII text. *)
Lemma filteredProjects_by_ascii projects term f :
  ascii_text term = true ->
  (forall r, In r projects ->
             ascii_text (studentName r) = true
             /\ ascii_text (projectTitle r) = true) ->
  filteredProjects_by lower projects term f
  = filteredProjects projects term f.
Proof.
  intros Ht Hp. unfold filteredProjects_by, filteredProjects.
  apply filter_ext_in. intros r Hr. destruct (Hp r Hr) as [Hn Hl].
  cbv zeta. now rewrite (lower_ok _ Ht), (lower_ok _ Hn), (lower_ok _ Hl).
Qed.

(** Two ASCII terms that are case variants are lowered to the same. *)
Lemma lower_case_variant term term' :
  ascii_text term = true -> ascii_text term' = true ->
  case_variant term term' -> lower term = lower term'.
Proof.
  intros H H' V. rewrite (lower_ok _ H), (lower_ok _ H').
  now apply StringFacts.case_variant_lower.
Qed.

Lemma filter_part (pre t post : string) (f : FilterStatus) (r : Project) :
  ascii_text pre = true -> ascii_text t = true -> ascii_text post = true ->
  (fun project =>
     (includes (lower (studentName project)) (lower (pre ++ t ++ post))
      || includes (lower (projectTitle project)) (lower (pre ++ t ++ post)))
     && (String.eqb (filter_str f) "all"
         || String.eqb (status_str (status project)) (filter_str f))) r = true ->
  (fun project =>
     (includes (lower (studentName project)) (lower t)
      || includes (lower (projectTitle project)) (lower t))
     && (String.eqb (filter_str f) "all"
         || String.eqb (status_str (status project)) (filter_str f))) r = true.
Proof.
  intros Hpre Ht Hpost. cbv beta.
  assert (Hl : ascii_text (pre ++ t ++ post) = true).
  { rewrite !UnicodeFacts.ascii_text_app, Hpre, Ht, Hpost. reflexivity. }
  rewrite (lower_ok _ Hl), (lower_ok _ Ht), !StringFacts.toLowerCase_app.
  rewrite !andb_true_iff, !orb_true_iff.
  intros [[H | H] S]; (split; [|exact S]);
    [left | right]; exact (GridFacts.includes_part _ _ _ _ H).
Qed.

End Engine.

End EngineFacts.

Module LabelEngineFacts.
Import JS JSString Dashboard Spec.
Local Open Scope string_scope.

Lemma replace_char_ascii (r : string) :
  ascii_text r = true -> ascii_text (replace r "-" " ") = true.
Proof.
  induction r as [|d r IH]; intros H; [reflexivity|].
  cbn [ascii_text] in H. apply andb_true_iff in H. destruct H as [Hd Hr].
  rewrite LabelFacts.replace_char. destruct (Ascii.eqb d "-").
  - cbn [ascii_text]. now rewrite Hr.
  - cbn [ascii_text]. now rewrite Hd, IH.
Qed.

Lemma filterLabel_ascii (s : string) :
  ascii_text s = true -> ascii_text (filterLabel s) = true.
Proof.
  destruct s as [|c r]; intros H; [reflexivity|].
  cbn [ascii_text] in H. apply andb_true_iff in H. destruct H as [Hc Hr].
  rewrite LabelFacts.filterLabel_cons. cbn [ascii_text].
  now rewrite (UnicodeFacts.upper_char_ascii c Hc), replace_char_ascii.
Qed.

(** On an ASCII value the text is the one computed on ASCII text. *)
Lemma filterLabel_by_ascii (upper : string -> string) (s : string) :
  ascii_uppering upper -> ascii_text s = true ->
  filterLabel_by upper s = filterLabel s.
Proof.
  intros U H. unfold filterLabel_by, filterLabel. f_equal. apply U.
  destruct s as [|c r]; [reflexivity|].
  cbn [ascii_text] in H. apply andb_true_iff in H. destruct H as [Hc _].
  unfold charAt. cbn [String.get ascii_text]. now rewrite Hc.
Qed.

End LabelEngineFacts.

Import JS App Spec.
Local Open Scope string_scope.
Unset Implicit Arguments.

(** C1 (amended): for every project list, search term and status filter
    made of ASCII text, and whatever the engine's [toLowerCase] does beyond
    ASCII, the grid is exactly the subsequence of the list, in the original
    order, of the records whose status passes the status filter (the filter
    is "all" or equals the status) and that pass the search (the term is
    empty, or the student name or the project title contains it up to the
    case of the letters A-Z); nothing outside this set is shown, and no
    other list is such a subsequence. *)
Theorem filteredProjects_exact :
  forall toLowerCase : string -> string,
    ascii_lowering toLowerCase ->
    forall (projects : list Project) (term : string) (f : FilterStatus),
      ascii_text term = true ->
      (forall r, In r projects ->
                 ascii_text (studentName r) = true
                 /\ ascii_text (projectTitle r) = true) ->
      kept (selected term f) projects
        (filteredProjects_by toLowerCase projects term f)
      /\ (forall r, In r (filteredProjects_by toLowerCase projects term f) <->
                    In r projects /\ selected term f r)
      /\ (forall l, kept (selected term f) projects l <->
                    l = filteredProjects_by toLowerCase projects term f).
Proof.
  intros toLowerCase L projects term f Ht Hp.
  rewrite (@EngineFacts.filteredProjects_by_ascii toLowerCase L projects term f
             Ht Hp).
  pose proof (FilterFacts.filteredProjects_kept projects term f) as K.
  split; [exact K|]. split.
  - apply FilterFacts.In_filteredProjects.
  - intros l. split.
    + intros Kl. exact (FilterFacts.kept_unique Kl K).
    + intros ->. exact K.
Qed.

Lemma filteredProjects_exact_witness :
  (ascii_lowering Unicode.toLowerCase
   /\ ascii_text "AI" = true
   /\ forall r, In r mockProjects ->
                ascii_text (studentName r) = true
                /\ ascii_text (projectTitle r) = true)
  /\ map id (filteredProjects_by Unicode.toLowerCase mockProjects "AI" FilterAll)
     = [1; 4; 5]%Z
  /\ kept (selected "AI" FilterAll) mockProjects
       (filteredProjects_by Unicode.toLowerCase mockProjects "AI" FilterAll).
Proof.
  assert (Hp : forall r, In r mockProjects ->
                 ascii_text (studentName r) = true
                 /\ ascii_text (projectTitle r) = true).
  { intros r Hr. simpl in Hr.
    repeat (destruct Hr as [<- | Hr]; [split; reflexivity|]). destruct Hr. }
  split; [split; [exact UnicodeFacts.lowering | split; [reflexivity | exact Hp]]|].
  split; [vm_compute; reflexivity|].
  exact (proj1 (filteredProjects_exact Unicode.toLowerCase UnicodeFacts.lowering
                  mockProjects "AI" FilterAll eq_refl Hp)).
Defined.

(** C1 as stated fails beyond ASCII: a record named "ΑΣ" contains the term
    "Σ" as it stands, but the engine lowers the name to "ας", with a final
    sigma, and the term to "σ", so the grid does not show the record. *)
Lemma filteredProjects_misses_final_sigma :
  let r := mkProject 1 "ΑΣ" "" "" [] 0 Pending Individual "" "" in
  Unicode.toLowerCase "ΑΣ" = "ας"
  /\ Unicode.toLowerCase "Σ" = "σ"
  /\ selected "Σ" FilterAll r
  /\ filteredProjects_by Unicode.toLowerCase [r] "Σ" FilterAll = []
  /\ ~ kept (selected "Σ" FilterAll) [r]
         (filteredProjects_by Unicode.toLowerCase [r] "Σ" FilterAll).
Proof.
  intros r.
  assert (S : selected "Σ" FilterAll r).
  { split; [now left|]. right; left. exists "Α", "Σ", "".
    split; [reflexivity | apply StringFacts.case_variant_refl]. }
  assert (E : filteredProjects_by Unicode.toLowerCase [r] "Σ" FilterAll = [])
    by (vm_compute; reflexivity).
  split; [vm_compute; reflexivity|]. split; [vm_compute; reflexivity|].
  split; [exact S|]. split; [exact E|].
  rewrite E. intros K. inversion K; subst. contradiction.
Qed.

(** C6: with the status filter "completed" only records whose status is
    exactly "completed" are shown: a failed, cancelled, pending or
    in-progress record never is. *)
Theorem filter_completed_only :
  forall (projects : list Project) (term : string) (r : Project),
    In r (filteredProjects projects term FilterCompleted) ->
    status r = Completed
    /\ status r <> Failed /\ status r <> Cancelled
    /\ status r <> Pending /\ status r <> InProgress.
Proof.
  intros projects term r H.
  apply FilterFacts.In_filteredProjects in H. destruct H as [_ [[E | E] _]].
  - discriminate E.
  - apply (FilterFacts.status_str_inj (status r) Completed) in E.
    rewrite E. repeat split; discriminate.
Qed.

Lemma filter_completed_only_witness :
  let r := mkProject 2 "Omollo Victor" "STAFF_PULSE" "" [] 98 Completed Individual "" "" in
  let failed := mkProject 7 "Omollo Victor" "STAFF_PULSE" "" [] 40 Failed Team "" "" in
  In r (filteredProjects [failed; r] "staff" FilterCompleted)
  /\ status r = Completed.
Proof.
  intros r failed. split.
  - vm_compute. left. reflexivity.
  - apply (filter_completed_only [failed; r] "staff" r).
    vm_compute. left. reflexivity.
Defined.

(** C9: with the filter "all" and an empty search term the grid is the whole
    project list, unchanged and in order. *)
Theorem filteredProjects_identity :
  forall projects : list Project,
    filteredProjects projects "" FilterAll = projects.
Proof.
  intros projects. unfold filteredProjects.
  apply FilterFacts.filter_id. intros r. cbv zeta.
  change (toLowerCase "") with "".
  now rewrite StringFacts.includes_empty.
Qed.

(** C7 (amended): on ASCII text the search does not depend on the casing
    of the term: whatever the engine's case conversion does beyond ASCII,
    an ASCII term and any ASCII case variant of it, its upper-casing among
    them, select the same records from every project list under every
    status filter.  With the projects of "James Muganzi Imoli" and "Omollo
    Victor", both "jam" and "JAM" show the first only. *)
Theorem search_case_invariant :
  forall toLowerCase toUpperCase : string -> string,
    ascii_lowering toLowerCase -> ascii_uppering toUpperCase ->
    (forall (projects : list Project) (term term' : string) (f : FilterStatus),
        ascii_text term = true -> ascii_text term' = true ->
        case_variant term term' ->
        filteredProjects_by toLowerCase projects term f
        = filteredProjects_by toLowerCase projects term' f)
    /\ (forall (projects : list Project) (term : string) (f : FilterStatus),
          ascii_text term = true ->
          filteredProjects_by toLowerCase projects (toUpperCase term) f
          = filteredProjects_by toLowerCase projects term f)
    /\ (let james := mkProject 3 "James Muganzi Imoli" "Ajirawise Job Alert Bot"
                       "" [] 97 Completed Team "" "" in
        let omollo := mkProject 2 "Omollo Victor" "STAFF_PULSE"
                        "" [] 98 Completed Individual "" "" in
        filteredProjects_by toLowerCase [james; omollo] "jam" FilterAll = [james]
        /\ filteredProjects_by toLowerCase [james; omollo] "JAM" FilterAll
           = [james]
        /\ filteredProjects_by toLowerCase [omollo; james] "JAM" FilterAll
           = [james]).
Proof.
  intros toLowerCase toUpperCase L U.
  assert (V : forall projects term term' f,
             ascii_text term = true -> ascii_text term' = true ->
             case_variant term term' ->
             filteredProjects_by toLowerCase projects term f
             = filteredProjects_by toLowerCase projects term' f).
  { intros projects term term' f H H' V. unfold filteredProjects_by.
    now rewrite (@EngineFacts.lower_case_variant toLowerCase L term term' H H' V). }
  split; [exact V|]. split.
  - intros projects term f H. rewrite (U term H). symmetry.
    apply V; [exact H | | apply StringFacts.case_variant_upper].
    clear - H. induction term as [|c term IH]; [reflexivity|].
    cbn [ascii_text] in H. apply andb_true_iff in H. destruct H as [Hc Ht].
    cbn [JS.toUpperCase ascii_text].
    now rewrite (UnicodeFacts.upper_char_ascii c Hc), (IH Ht).
  - cbv zeta.
    rewrite !(@EngineFacts.filteredProjects_by_ascii toLowerCase L);
      try reflexivity;
      try (intros r Hr; simpl in Hr;
           repeat (destruct Hr as [<- | Hr]; [split; reflexivity|]);
           destruct Hr).
    vm_compute. repeat split.
Qed.

Lemma search_case_invariant_witness :
  (ascii_lowering Unicode.toLowerCase /\ ascii_uppering Unicode.toUpperCase
   /\ ascii_text "jam" = true /\ ascii_text "JAM" = true
   /\ case_variant "jam" "JAM")
  /\ filteredProjects_by Unicode.toLowerCase mockProjects "jam" FilterAll
     = filteredProjects_by Unicode.toLowerCase mockProjects "JAM" FilterAll.
Proof.
  assert (V : case_variant "jam" "JAM").
  { apply StringFacts.case_variant_lower. reflexivity. }
  split.
  - split; [exact UnicodeFacts.lowering|].
    split; [exact UnicodeFacts.uppering|]. repeat split; try reflexivity.
    exact V.
  - exact (proj1 (search_case_invariant Unicode.toLowerCase Unicode.toUpperCase
                    UnicodeFacts.lowering UnicodeFacts.uppering)
                 mockProjects "jam" "JAM" FilterAll eq_refl eq_refl V).
Defined.

(** C7 as stated fails beyond ASCII: the upper-casing of the term "ς" is
    "Σ", yet a record named "ας" is shown for the first and not for the
    second, which the engine lowers to "σ". *)
Lemma search_depends_on_case_of_sigma :
  let r := mkProject 1 "ας" "" "" [] 0 Pending Individual "" "" in
  Unicode.toUpperCase "ς" = "Σ"
  /\ filteredProjects_by Unicode.toLowerCase [r] "ς" FilterAll = [r]
  /\ filteredProjects_by Unicode.toLowerCase [r] "Σ" FilterAll = []
  /\ filteredProjects_by Unicode.toLowerCase [r] "ς" FilterAll
     <> filteredProjects_by Unicode.toLowerCase [r]
          (Unicode.toUpperCase "ς") FilterAll.
Proof.
  intros r. split; [vm_compute; reflexivity|].
  split; [vm_compute; reflexivity|]. split; [vm_compute; reflexivity|].
  vm_compute. discriminate.
Qed.

(** C3 (amended): for every project list [total] is the length of the
    list.  The average has no guard for an empty list: there it is
    [Math.round(0 / 0)], which is [NaN] and not [0].  The dashboard never
    gets there: its list is the constant [mockProjects], which no run
    resizes, so the list has its six records and the average is 96 in every
    state the dashboard can reach. *)
Theorem stats_total_and_empty_average :
  (forall projects : list Project,
      total (stats projects) = List.length projects)
  /\ averageScore (stats []) = NaN
  /\ (forall events : list Dashboard.Event,
        let st := Dashboard.run events initial in
        List.length (projects st) = 6%nat
        /\ projects st <> []
        /\ total (getSummaryStatistics st) = 6%nat
        /\ averageScore (getSummaryStatistics st) = Finite (inject_Z 96)).
Proof.
  split; [reflexivity|]. split; [reflexivity|].
  intros events st.
  pose proof (RunFacts.run_evolved events initial) as H. fold st in H.
  pose proof (RunFacts.evolved_length H) as E.
  change (List.length (projects initial)) with 6%nat in E.
  split; [now symmetry|]. split.
  - intros N. rewrite N in E. discriminate E.
  - split; [now symmetry|].
    unfold getSummaryStatistics.
    rewrite <- (RunFacts.evolved_averageScore H). vm_compute. reflexivity.
Qed.

(** C3 as stated fails on the empty list: the average is [NaN], not 0. *)
Lemma stats_empty_average_is_not_zero :
  averageScore (stats []) = NaN
  /\ averageScore (stats []) <> Finite 0
  /\ is_finite (averageScore (stats [])) = false.
Proof. split; [reflexivity|]. split; [discriminate | reflexivity]. Qed.




(** C2: in every state in which an analysis is in flight, and for every
    project id, triggering the analysis of that project does nothing: the
    state is left as it was, so what is reached once the analysis already
    in flight has run to completion is the same with or without the
    attempt. *)
Theorem analyzeProject_in_flight_noop :
  forall (st : State) (projectId : Z),
    isAnalyzing st = true ->
    analyzeProject projectId st = st
    /\ settle (analyzeProject projectId st) = settle st.
Proof.
  intros st projectId An.
  assert (E : analyzeProject projectId st = st).
  { unfold analyzeProject.
    destruct (find (fun b => (fst b =? projectId)%Z) (analyzeButtons st))
      as [[i button]|] eqn:F; [|reflexivity].
    apply find_some in F. destruct F as [Hb _].
    destruct (AnalyzeFacts.analyzeButtons_props st _ Hb) as [D _].
    simpl in D. unfold press. now rewrite D, An. }
  split; [exact E | now rewrite E].
Qed.

Lemma analyzeProject_in_flight_noop_witness :
  let st := analyzeProject 6 initial in
  (isAnalyzing st = true /\ timers st = [6%Z])
  /\ analyzeProject 6 st = st
  /\ settle (analyzeProject 6 st) = settle st.
Proof.
  intros st. split.
  - split; reflexivity.
  - apply (analyzeProject_in_flight_noop st 6). reflexivity.
Defined.

(** C4: for every project list that contains a record with the given id,
    once an analysis of that id has run to completion (nothing else being in
    flight) the record found under the id, the first one and under unique ids
    the only one, has status "completed" and every other field as before,
    every other record of the list is unchanged and in place, and
    [isAnalyzing] is false again. *)
Theorem analysis_completes_one_record :
  forall (st : State) (projectId : Z),
    timers st = [] ->
    (exists r, In r (projects st) /\ id r = projectId) ->
    let st' := settle (handleAnalyzeProject_call projectId st) in
    exists before r after,
      projects st = (before ++ r :: after)%list
      /\ id r = projectId
      /\ (forall x, In x before -> id x <> projectId)
      /\ (NoDup (map id (projects st)) ->
          forall x, In x before \/ In x after -> id x <> projectId)
      /\ projects st' = (before ++ set_status Completed r :: after)%list
      /\ status (set_status Completed r) = Completed
      /\ (id (set_status Completed r) = id r
          /\ studentName (set_status Completed r) = studentName r
          /\ projectTitle (set_status Completed r) = projectTitle r
          /\ githubUrl (set_status Completed r) = githubUrl r
          /\ technology (set_status Completed r) = technology r
          /\ score (set_status Completed r) = score r
          /\ type (set_status Completed r) = type r
          /\ feedback (set_status Completed r) = feedback r
          /\ lastUpdated (set_status Completed r) = lastUpdated r)
      /\ isAnalyzing st' = false
      /\ timers st' = []
      /\ selectedProject st' = selectedProject st
      /\ searchTerm st' = searchTerm st
      /\ filterStatus st' = filterStatus st.
Proof.
  intros st projectId T (r0 & Hr0 & Ir0) st'.
  destruct (AnalyzeFacts.find_ref_first (fun p => (id p =? projectId)%Z)
              (projects st)) as (before & r & after & P & Fr & Hb & F).
  { exists r0. split; [exact Hr0 | now apply Z.eqb_eq]. }
  apply Z.eqb_eq in Fr.
  assert (S' : st' = with_projects (before ++ set_status Completed r :: after)%list
                       (setIsAnalyzing false (setIsAnalyzing true st))).
  { unfold st'. rewrite (AnalyzeFacts.settle_call projectId st T).
    unfold handleAnalyzeProject_resume. cbv zeta.
    change (projects (setIsAnalyzing false (setIsAnalyzing true st)))
      with (projects st).
    rewrite F, P, AnalyzeFacts.modify_middle. reflexivity. }
  exists before, r, after. split; [exact P|]. split; [exact Fr|]. split.
  { intros x Hx E. apply Z.eqb_eq in E. rewrite (Hb x Hx) in E. discriminate E. }
  split.
  { intros N x Hx. rewrite <- Fr. rewrite P in N.
    exact (AnalyzeFacts.unique_id before r after N x Hx). }
  rewrite S'. simpl. rewrite T. repeat split; reflexivity.
Qed.

Lemma analysis_completes_one_record_witness :
  (timers initial = []
   /\ exists r, In r (projects initial) /\ id r = 6%Z)
  /\ let st' := settle (handleAnalyzeProject_call 6 initial) in
     exists before r after,
       projects initial = (before ++ r :: after)%list
       /\ id r = 6%Z
       /\ (forall x, In x before -> id x <> 6%Z)
       /\ (NoDup (map id (projects initial)) ->
           forall x, In x before \/ In x after -> id x <> 6%Z)
       /\ projects st' = (before ++ set_status Completed r :: after)%list
       /\ status (set_status Completed r) = Completed
       /\ (id (set_status Completed r) = id r
           /\ studentName (set_status Completed r) = studentName r
           /\ projectTitle (set_status Completed r) = projectTitle r
           /\ githubUrl (set_status Completed r) = githubUrl r
           /\ technology (set_status Completed r) = technology r
           /\ score (set_status Completed r) = score r
           /\ type (set_status Completed r) = type r
           /\ feedback (set_status Completed r) = feedback r
           /\ lastUpdated (set_status Completed r) = lastUpdated r)
       /\ isAnalyzing st' = false
       /\ timers st' = []
       /\ selectedProject st' = selectedProject initial
       /\ searchTerm st' = searchTerm initial
       /\ filterStatus st' = filterStatus initial.
Proof.
  assert (T : timers initial = []) by reflexivity.
  assert (H : exists r, In r (projects initial) /\ id r = 6%Z).
  { exists (nth 5 mockProjects (mkProject 0 "" "" "" [] 0 Pending Team "" "")).
    split; [|reflexivity]. vm_compute. tauto. }
  split; [split; [exact T | exact H]|].
  exact (analysis_completes_one_record initial 6 T H).
Defined.

(** C8: an analysis of an id that no record carries goes through and
    changes no record: the call raises [isAnalyzing] and leaves the list
    alone, and once it has run to completion the flag is down again and
    every record is as it was. *)
Theorem analysis_of_unknown_id :
  forall (st : State) (projectId : Z),
    timers st = [] ->
    (forall r, In r (projects st) -> id r <> projectId) ->
    let called := handleAnalyzeProject_call projectId st in
    isAnalyzing called = true
    /\ projects called = projects st
    /\ isAnalyzing (settle called) = false
    /\ projects (settle called) = projects st
    /\ settle called = setIsAnalyzing false st.
Proof.
  intros st projectId T H called.
  assert (S' : settle called = setIsAnalyzing false st).
  { unfold called. rewrite (AnalyzeFacts.settle_call projectId st T).
    unfold handleAnalyzeProject_resume. cbv zeta.
    change (projects (setIsAnalyzing false (setIsAnalyzing true st)))
      with (projects st).
    rewrite AnalyzeFacts.find_ref_none; [reflexivity|].
    intros r Hr. apply Z.eqb_neq. now apply H. }
  split; [reflexivity|]. split; [reflexivity|].
  rewrite S'. repeat split; reflexivity.
Qed.

Lemma analysis_of_unknown_id_witness :
  (timers initial = []
   /\ forall r, In r (projects initial) -> id r <> 42%Z)
  /\ isAnalyzing (handleAnalyzeProject_call 42 initial) = true
  /\ projects (settle (handleAnalyzeProject_call 42 initial)) = mockProjects.
Proof.
  assert (T : timers initial = []) by reflexivity.
  assert (H : forall r, In r (projects initial) -> id r <> 42%Z).
  { intros r Hr. simpl in Hr.
    repeat (destruct Hr as [<- | Hr]; [discriminate|]). destruct Hr. }
  split; [split; [exact T | exact H]|].
  destruct (analysis_of_unknown_id initial 42 T H) as (A & _ & _ & P & _).
  split; [exact A | exact P].
Defined.

(** C10 (amended): for every score and every total the percentage of
    the score badge is [Math.round((score / total) * 100)], in binary64
    arithmetic, when [total > 0], and 0 otherwise, that is when
    [total <= 0] or [total] is [NaN]; the division never has a zero
    divisor.  The result is [NaN] exactly when the guard is passed with a
    [NaN] score or with an infinite score over an infinite total; otherwise
    it is a whole number or an infinity. *)
Theorem ScoreBadge_percentage_total :
  forall score total : number,
    Badge.percentage score total
    = (if gt total (Finite 0)
       then Math_round (mul (div score total) (Finite 100))
       else Finite 0)
    /\ (gt total (Finite 0) = true ->
        forall q, total = Finite q -> ~ (q == 0)%Q)
    /\ (ge (Finite 0) total = true \/ total = NaN ->
        Badge.percentage score total = Finite 0)
    /\ (Badge.percentage score total = NaN <->
        gt total (Finite 0) = true
        /\ (score = NaN
            \/ (is_infinite score = true /\ is_infinite total = true)))
    /\ (Badge.percentage score total = NaN
        \/ is_infinite (Badge.percentage score total) = true
        \/ exists k : Z, Badge.percentage score total = Finite (inject_Z k))
    /\ snd (Badge.ScoreBadge score (Some total))
       = Badge.percentage score total.
Proof.
  intros score total. split; [reflexivity|].
  split; [|split; [|split; [|split]]].
  - intros G q -> Z. apply BadgeFacts.gt_zero_iff in G.
    rewrite Z in G. discriminate G.
  - intros H. unfold Badge.percentage.
    assert (G : gt total (Finite 0) = false).
    { destruct H as [H | ->]; [|reflexivity].
      destruct total as [|t|b]; simpl in *; try discriminate H.
      - now rewrite H.
      - now rewrite H. }
    now rewrite G.
  - unfold Badge.percentage.
    destruct (gt total (Finite 0)) eqn:G.
    + rewrite BadgeFacts.Math_round_NaN, BadgeFacts.mul_100_NaN,
        (@BadgeFacts.div_guarded_NaN score total G). tauto.
    + split; [discriminate | intros [H _]; discriminate H].
  - unfold Badge.percentage.
    destruct (gt total (Finite 0)).
    + destruct (mul (div score total) (Finite 100)) as [|s|q]; simpl.
      * now left.
      * right; left; reflexivity.
      * right; right. eexists. reflexivity.
    + right; right. exists 0%Z. reflexivity.
  - reflexivity.
Qed.

Lemma ScoreBadge_percentage_total_witness :
  (gt (Finite 40) (Finite 0) = true
   /\ Badge.percentage (Finite 23) (Finite 40) = Finite (inject_Z 57))
  /\ (ge (Finite 0) (Finite 0) = true
      /\ Badge.percentage (Finite 50) (Finite 0) = Finite 0)
  /\ Badge.percentage (Finite (literal (inject_Z (10 ^ 308))))
       (Finite (literal (1 # 10)))
     = Infinity false.
Proof.
  split; [split; [reflexivity | vm_compute; reflexivity]|]. split.
  - split; [reflexivity|].
    apply (proj1 (proj2 (proj2 (ScoreBadge_percentage_total
                                  (Finite 50) (Finite 0))))).
    left. reflexivity.
  - vm_compute. reflexivity.
Defined.

(** C10 as stated fails for a score that is [NaN]: the guard looks at the
    total only, and the badge shows [NaN]. *)
Lemma ScoreBadge_percentage_of_NaN :
  Badge.percentage NaN (Finite 100) = NaN
  /\ snd (Badge.ScoreBadge NaN None) = NaN
  /\ is_finite (Badge.percentage NaN (Finite 100)) = false.
Proof. repeat split. Qed.

(** ** Further properties of the dashboard *)

Import Dashboard Props.

(** X1: whatever the user does and whenever timers fire, starting from a
    state where the flag tells whether an analysis is in flight, at most one
    analysis is in flight and [isAnalyzing] is true exactly while one is. *)
Theorem one_analysis_at_a_time :
  forall (events : list Event) (st : State),
    consistent st ->
    let st' := run events st in
    consistent st'
    /\ (List.length (timers st') <= 1)%nat
    /\ (isAnalyzing st' = true <-> timers st' <> []).
Proof.
  intros events st C st'.
  pose proof (RunFacts.run_consistent events C) as C'. fold st' in C'.
  split; [exact C'|].
  destruct C' as [[T A] | (q & T & A)]; rewrite T, A; simpl.
  - split; [lia|]. split; [discriminate | congruence].
  - split; [lia|]. split; [discriminate | reflexivity].
Qed.

Lemma one_analysis_at_a_time_witness :
  let events := [PressAnalyze 6; TypeSearch "poster"; PressAnalyze 6;
                 PickFilter FilterPending; PressAnalyze 6] in
  consistent initial
  /\ timers (run events initial) = [6%Z]
  /\ (List.length (timers (run events initial)) <= 1)%nat.
Proof.
  intros events.
  assert (C : consistent initial) by (left; split; reflexivity).
  split; [exact C|]. split; [reflexivity|].
  exact (proj1 (proj2 (one_analysis_at_a_time events initial C))).
Defined.

(** X2: no run of the dashboard adds, removes or reorders records, and a
    record only ever changes by its status becoming "completed": ids,
    names, titles and scores stay as they were. *)
Theorem runs_only_complete_records :
  forall (events : list Event) (st : State),
    let st' := run events st in
    Forall2 evolved (projects st) (projects st')
    /\ List.length (projects st') = List.length (projects st)
    /\ map id (projects st') = map id (projects st)
    /\ map studentName (projects st') = map studentName (projects st)
    /\ map projectTitle (projects st') = map projectTitle (projects st)
    /\ map score (projects st') = map score (projects st)
    /\ (forall i p, nth_error (projects st) i = Some p ->
                    status p = Completed ->
                    nth_error (projects st') i = Some p).
Proof.
  intros events st st'.
  pose proof (RunFacts.run_evolved events st) as H. fold st' in H.
  split; [exact H|].
  split; [symmetry; apply (RunFacts.evolved_length H)|].
  split; [symmetry; apply (RunFacts.evolved_map id (fun _ _ => eq_refl) H)|].
  split; [symmetry;
          apply (RunFacts.evolved_map studentName (fun _ _ => eq_refl) H)|].
  split; [symmetry;
          apply (RunFacts.evolved_map projectTitle (fun _ _ => eq_refl) H)|].
  split; [symmetry; apply (RunFacts.evolved_map score (fun _ _ => eq_refl) H)|].
  apply (RunFacts.evolved_completed_stays H).
Qed.

(** X3: the Total and Avg Score cards never change during a run, and the
    Completed card never goes down. *)
Theorem summary_along_runs :
  forall (events : list Event) (st : State),
    let before := getSummaryStatistics st in
    let after := getSummaryStatistics (run events st) in
    total after = total before
    /\ averageScore after = averageScore before
    /\ (completed before <= completed after)%nat.
Proof.
  intros events st before after.
  pose proof (RunFacts.run_evolved events st) as H.
  unfold before, after, getSummaryStatistics. split; [|split].
  - symmetry. apply (RunFacts.evolved_length H).
  - symmetry. apply (RunFacts.evolved_averageScore H).
  - apply (RunFacts.evolved_completed H).
Qed.

(** X4: completions of analyses commute and repeat harmlessly: the order
    in which two timers fire does not matter, and completing the analysis
    of an id twice is the same as completing it once. *)
Theorem completions_commute :
  forall (a b : Z) (st : State),
    handleAnalyzeProject_resume a (handleAnalyzeProject_resume b st)
    = handleAnalyzeProject_resume b (handleAnalyzeProject_resume a st)
    /\ handleAnalyzeProject_resume a (handleAnalyzeProject_resume a st)
       = handleAnalyzeProject_resume a st.
Proof.
  intros a b st. split.
  - apply CompletionFacts.resume_swap.
  - apply CompletionFacts.resume_twice.
Qed.

(** X5: with unique ids, once the analysis of an id has completed every
    record with that id is completed, so the grid offers no Analyze button
    for it any more: pressing for that id again does nothing. *)
Theorem no_second_analysis :
  forall (st : State) (projectId : Z),
    NoDup (map id (projects st)) ->
    let st' := handleAnalyzeProject_resume projectId st in
    (forall r, In r (projects st') -> id r = projectId -> status r = Completed)
    /\ (forall b, In b (analyzeButtons st') -> fst b <> projectId)
    /\ analyzeProject projectId st' = st'.
Proof.
  intros st projectId N st'.
  assert (H : forall r, In r (projects st') -> id r = projectId ->
                        status r = Completed).
  { intros r. apply (@CompletionFacts.completed_after projectId st r N). }
  assert (A : analyzeProject projectId st' = st').
  { apply CompletionFacts.no_button. intros r Hr Ir.
    rewrite (H r Hr Ir). discriminate. }
  split; [exact H|]. split; [|exact A].
  intros b Hb E. unfold analyzeButtons in Hb. apply in_flat_map in Hb.
  destruct Hb as (project & Hp & Hb).
  apply filter_In in Hp. destruct Hp as [Hp _].
  unfold analyzeButton in Hb.
  destruct (status_is "pending" project) eqn:P; [|destruct Hb].
  destruct Hb as [<- | []]. simpl in E.
  apply (StatsFacts.status_is_iff Pending) in P.
  rewrite (H project Hp E) in P. discriminate P.
Qed.

Lemma no_second_analysis_witness :
  NoDup (map id (projects initial))
  /\ analyzeProject 6 (handleAnalyzeProject_resume 6 initial)
     = handleAnalyzeProject_resume 6 initial.
Proof.
  assert (N : NoDup (map id (projects initial))).
  { simpl. repeat constructor; simpl; intuition discriminate. }
  split; [exact N|].
  exact (proj2 (proj2 (no_second_analysis initial 6 N))).
Defined.

(** X6: when the record [find] returns for the id is pending, the
    completion of its analysis moves exactly one project from the Pending
    card to the Completed card; Total, In Progress and Avg Score stay. *)
Theorem completion_moves_one_project :
  forall (st : State) (projectId : Z) (r : Project),
    find (fun p => (id p =? projectId)%Z) (projects st) = Some r ->
    status r = Pending ->
    let before := getSummaryStatistics st in
    let after :=
      getSummaryStatistics (handleAnalyzeProject_resume projectId st) in
    total after = total before
    /\ completed after = S (completed before)
    /\ pending before = S (pending after)
    /\ inProgress after = inProgress before
    /\ averageScore after = averageScore before.
Proof.
  intros st projectId r F Sr before after.
  unfold before, after, getSummaryStatistics.
  pose proof (CompletionFacts.resume_evolved projectId st) as Ev.
  destruct (CompletionFacts.resume_found projectId st F)
    as (l1 & l2 & E & _ & E').
  split; [symmetry; apply (RunFacts.evolved_length Ev)|].
  split; [|split; [|split]].
  - unfold stats, completed. rewrite E', E, !CompletionFacts.count_middle.
    unfold status_is at 2 5. rewrite Sr. simpl. lia.
  - unfold stats, pending. rewrite E', E, !CompletionFacts.count_middle.
    unfold status_is at 2 5. rewrite Sr. simpl. lia.
  - unfold stats, inProgress. rewrite E', E, !CompletionFacts.count_middle.
    unfold status_is at 2 5. rewrite Sr. simpl. lia.
  - symmetry. apply (RunFacts.evolved_averageScore Ev).
Qed.

Lemma completion_moves_one_project_witness :
  let r := nth 5 mockProjects (mkProject 0 "" "" "" [] 0 Failed Team "" "") in
  (find (fun p => (id p =? 6)%Z) (projects initial) = Some r
   /\ status r = Pending)
  /\ completed (getSummaryStatistics (handleAnalyzeProject_resume 6 initial))
     = S (completed (getSummaryStatistics initial)).
Proof.
  intros r.
  assert (F : find (fun p => (id p =? 6)%Z) (projects initial) = Some r)
    by reflexivity.
  assert (Sr : status r = Pending) by reflexivity.
  split; [split; [exact F | exact Sr]|].
  exact (proj1 (proj2 (completion_moves_one_project initial 6 r F Sr))).
Defined.

(** X7: the modal reads the selected object, not a copy: if it shows the
    object the completion rewrites, it shows that object completed
    afterwards; if it shows any other object, it shows it unchanged. *)
Theorem modal_shows_the_live_record :
  forall (st : State) (projectId : Z) (ref : nat),
    selectedProject st = Some ref ->
    let st' := handleAnalyzeProject_resume projectId st in
    let found := find_ref (fun p => (id p =? projectId)%Z) (projects st) in
    modalOpen st' = true
    /\ (found = Some ref ->
        selectedRecord st'
        = option_map (set_status Completed) (selectedRecord st))
    /\ (found <> Some ref -> selectedRecord st' = selectedRecord st).
Proof.
  intros st projectId ref S st' found.
  destruct (RunFacts.resume_fields projectId st) as (_ & _ & S' & _).
  fold st' in S'. unfold modalOpen, selectedRecord.
  rewrite S', S. split; [reflexivity|].
  unfold st'. rewrite RunFacts.resume_projects. fold found.
  destruct found as [i|].
  - rewrite CompletionFacts.nth_error_modify. split.
    + intros E. injection E as ->. now rewrite Nat.eqb_refl.
    + intros E. destruct (Nat.eqb_spec i ref) as [-> | _];
        [now contradiction E | reflexivity].
  - split; [discriminate | reflexivity].
Qed.

Lemma modal_shows_the_live_record_witness :
  let st := handle (ViewDetails 5) initial in
  (selectedProject st = Some 5%nat
   /\ find_ref (fun p => (id p =? 6)%Z) (projects st) = Some 5%nat)
  /\ option_map status (selectedRecord st) = Some Pending
  /\ option_map status (selectedRecord (handleAnalyzeProject_resume 6 st))
     = Some Completed.
Proof.
  intros st.
  assert (S : selectedProject st = Some 5%nat) by reflexivity.
  assert (F : find_ref (fun p => (id p =? 6)%Z) (projects st) = Some 5%nat)
    by reflexivity.
  split; [split; [exact S | exact F]|]. split; [reflexivity|].
  rewrite (proj1 (proj2 (modal_shows_the_live_record st 6 5 S)) F).
  reflexivity.
Defined.

(** X8: with nothing in flight, pressing the Analyze button of a pending
    project of the grid and letting the timer fire is exactly the completion
    of the analysis of its id; under unique ids that project, and no other,
    ends up completed. *)
Theorem press_then_timer :
  forall (st : State) (r : Project),
    isAnalyzing st = false -> timers st = [] ->
    In r (getFilteredProjects st) -> status r = Pending ->
    let st' := run [PressAnalyze (id r); TimerFires] st in
    st' = handleAnalyzeProject_resume (id r) st
    /\ isAnalyzing (handle (PressAnalyze (id r)) st) = true
    /\ isAnalyzing st' = false
    /\ timers st' = []
    /\ (NoDup (map id (projects st)) ->
        exists before after,
          projects st = (before ++ r :: after)%list
          /\ projects st' = (before ++ set_status Completed r :: after)%list).
Proof.
  intros st r An T Hr Sr st'.
  assert (P : handle (PressAnalyze (id r)) st
              = handleAnalyzeProject_call (id r) st).
  { simpl. now apply (@AnalyzeFacts.analyzeProject_starts (id r) st r). }
  assert (E : st' = handleAnalyzeProject_resume (id r) st).
  { unfold st', run. cbn [fold_left]. rewrite P.
    cbn [handle]. unfold timer_fires, handleAnalyzeProject_call.
    cbn [timers with_timers setIsAnalyzing]. rewrite T. cbn [app].
    destruct st as [ps sel an term f ts]. simpl in An, T. subst an ts.
    reflexivity. }
  split; [exact E|]. split; [now rewrite P|].
  destruct (RunFacts.resume_fields (id r) st) as (A' & T' & _).
  rewrite E. split; [exact A'|]. split; [congruence|].
  intros N.
  destruct (CompletionFacts.resume_shape (id r) st)
    as [[_ H] | (before & r0 & after & E0 & I0 & Hb & E')].
  - apply filter_In in Hr. destruct Hr as [Hr _].
    now apply H in Hr.
  - exists before, after. rewrite E0 in N.
    apply filter_In in Hr. destruct Hr as [Hr _]. rewrite E0 in Hr.
    apply in_app_or in Hr. destruct Hr as [Hr | [-> | Hr]].
    + now apply Hb in Hr.
    + now split.
    + exfalso.
      apply (AnalyzeFacts.unique_id before r0 after N r); auto.
Qed.

Lemma press_then_timer_witness :
  let r := nth 5 mockProjects (mkProject 0 "" "" "" [] 0 Failed Team "" "") in
  (isAnalyzing initial = false /\ timers initial = []
   /\ In r (getFilteredProjects initial) /\ status r = Pending)
  /\ run [PressAnalyze 6; TimerFires] initial
     = handleAnalyzeProject_resume 6 initial.
Proof.
  intros r.
  assert (Hr : In r (getFilteredProjects initial)).
  { vm_compute. tauto. }
  split; [repeat split; [exact Hr]|].
  exact (proj1 (press_then_timer initial r eq_refl eq_refl Hr eq_refl)).
Defined.

(** X9: filtering composes: filtering a grid again with the same term and
    filter changes nothing, and two filterings can be applied in either
    order. *)
Theorem filters_compose :
  forall (projects : list Project) (t t' : string) (f f' : FilterStatus),
    filteredProjects (filteredProjects projects t f) t f
    = filteredProjects projects t f
    /\ filteredProjects (filteredProjects projects t f) t' f'
       = filteredProjects (filteredProjects projects t' f') t f.
Proof.
  intros projects t t' f f'. rewrite !GridFacts.filteredProjects_shown.
  split; [apply GridFacts.filter_twice | apply GridFacts.filter_swap].
Qed.

(** X10: for ASCII search terms, typing more never brings a card back,
    whatever the names and titles are and whatever the engine's
    [toLowerCase] does beyond ASCII: the grid for a longer term is what
    that term selects from the grid of any part of it, so it is a part of
    that grid and never longer. *)
Theorem longer_term_narrows :
  forall toLowerCase : string -> string,
    ascii_lowering toLowerCase ->
    forall (projects : list Project) (pre t post : string) (f : FilterStatus),
      ascii_text pre = true -> ascii_text t = true ->
      ascii_text post = true ->
      let longer := pre ++ t ++ post in
      filteredProjects_by toLowerCase projects longer f
      = filteredProjects_by toLowerCase
          (filteredProjects_by toLowerCase projects t f) longer f
      /\ (forall r, In r (filteredProjects_by toLowerCase projects longer f) ->
                    In r (filteredProjects_by toLowerCase projects t f))
      /\ (List.length (filteredProjects_by toLowerCase projects longer f)
          <= List.length (filteredProjects_by toLowerCase projects t f))%nat.
Proof.
  intros toLowerCase L projects pre t post f Hpre Ht Hpost longer.
  assert (E : filteredProjects_by toLowerCase projects longer f
              = filteredProjects_by toLowerCase
                  (filteredProjects_by toLowerCase projects t f) longer f).
  { unfold filteredProjects_by. symmetry.
    apply GridFacts.filter_narrow. intros r.
    apply (@EngineFacts.filter_part toLowerCase L pre t post f r
             Hpre Ht Hpost). }
  split; [exact E|]. split.
  - intros r Hr. rewrite E in Hr. unfold filteredProjects_by at 1 in Hr.
    apply filter_In in Hr. tauto.
  - rewrite E. unfold filteredProjects_by at 1.
    apply GridFacts.filter_length_le.
Qed.

Lemma longer_term_narrows_witness :
  (ascii_lowering Unicode.toLowerCase
   /\ ascii_text "Poster" = true /\ ascii_text " Maker" = true)
  /\ map id (filteredProjects_by Unicode.toLowerCase mockProjects
               "Poster" FilterAll) = [1; 6]%Z
  /\ (List.length (filteredProjects_by Unicode.toLowerCase mockProjects
                     "AI Poster Maker" FilterAll)
      <= List.length (filteredProjects_by Unicode.toLowerCase mockProjects
                        "Poster" FilterAll))%nat.
Proof.
  split; [split; [exact UnicodeFacts.lowering | split; reflexivity]|].
  split; [vm_compute; reflexivity|].
  exact (proj2 (proj2 (longer_term_narrows Unicode.toLowerCase
                         UnicodeFacts.lowering mockProjects
                         "AI " "Poster" " Maker" FilterAll
                         eq_refl eq_refl eq_refl))).
Defined.

(** X11: a failed or cancelled record can be reached under the filter
    "all" only: each of the other three filters shows records of its own
    status alone, and the grid under "all" is as long as the three other
    grids together plus the failed and cancelled records it shows. *)
Theorem failed_and_cancelled_only_under_all :
  forall (projects : list Project) (term : string),
    (forall f r, f <> FilterAll -> In r (filteredProjects projects term f) ->
                 status_str (status r) = filter_str f
                 /\ status r <> Failed /\ status r <> Cancelled)
    /\ List.length (filteredProjects projects term FilterAll)
       = (List.length (filteredProjects projects term FilterPending)
          + List.length (filteredProjects projects term FilterInProgress)
          + List.length (filteredProjects projects term FilterCompleted)
          + List.length
              (filter (fun r => match status r with
                                | Failed | Cancelled => true
                                | _ => false
                                end)
                      (filteredProjects projects term FilterAll)))%nat.
Proof.
  intros projects term. split.
  - intros f r Hf Hr. rewrite GridFacts.filteredProjects_shown in Hr.
    apply filter_In in Hr. destruct Hr as [_ Hr].
    apply GridFacts.shown_status in Hr.
    destruct f; [now contradiction Hf | | | ]; rewrite Hr;
      (split; [reflexivity | split; discriminate]).
  - rewrite !GridFacts.filteredProjects_shown. apply GridFacts.bucket_count.
Qed.

Lemma failed_and_cancelled_only_under_all_witness :
  let failed := mkProject 7 "Omollo Victor" "STAFF_PULSE" "" [] 40 Failed Team "" "" in
  let done := mkProject 8 "Omollo Victor" "STAFF_PULSE 2" "" [] 90 Completed Team "" "" in
  (FilterCompleted <> FilterAll
   /\ In done (filteredProjects [failed; done] "staff" FilterCompleted))
  /\ status done <> Failed
  /\ filteredProjects [failed; done] "staff" FilterAll = [failed; done]
  /\ filteredProjects [failed; done] "staff" FilterCompleted = [done].
Proof.
  intros failed done.
  assert (Hf : FilterCompleted <> FilterAll) by discriminate.
  assert (Hr : In done (filteredProjects [failed; done] "staff" FilterCompleted)).
  { vm_compute. tauto. }
  split; [split; [exact Hf | exact Hr]|]. split.
  - exact (proj1 (proj2 (proj1 (failed_and_cancelled_only_under_all
                                  [failed; done] "staff")
                                FilterCompleted done Hf Hr))).
  - split; reflexivity.
Defined.

(** X12: with an empty search the cards agree with the grid: Total is the
    number of records under "all", and Completed, In Progress and Pending
    are the numbers of records under the filter of that name. *)
Theorem summary_counts_the_grids :
  forall projects : list Project,
    total (stats projects)
    = List.length (filteredProjects projects "" FilterAll)
    /\ completed (stats projects)
       = List.length (filteredProjects projects "" FilterCompleted)
    /\ inProgress (stats projects)
       = List.length (filteredProjects projects "" FilterInProgress)
    /\ pending (stats projects)
       = List.length (filteredProjects projects "" FilterPending).
Proof.
  intros projects. rewrite !GridFacts.filteredProjects_shown.
  assert (E : forall f,
             filter (shown "" f) projects
             = filter (fun r =>
                         String.eqb (filter_str f) "all"
                         || String.eqb (status_str (status r)) (filter_str f))
                      projects).
  { intros f. apply filter_ext. intros r. apply GridFacts.shown_empty. }
  rewrite !E. split; [|repeat split].
  unfold stats, total. f_equal. symmetry.
  apply FilterFacts.filter_id. intros r. reflexivity.
Qed.

(** X13: the colour of the score badge never gets worse as the percentage
    grows, with the steps at 50, 70 and 90 being inclusive; a percentage
    that is not a number gets the lowest variant. *)
Theorem score_variant_steps :
  (forall p q : number,
      ge q p = true ->
      (rank (Badge.getScoreVariant p) <= rank (Badge.getScoreVariant q))%nat)
  /\ (forall x : Q,
        (Badge.getScoreVariant (Finite x) = Badge.success <-> (90 <= x)%Q)
        /\ (Badge.getScoreVariant (Finite x) = Badge.warning
            <-> (70 <= x)%Q /\ (x < 90)%Q)
        /\ (Badge.getScoreVariant (Finite x) = Badge.secondary
            <-> (50 <= x)%Q /\ (x < 70)%Q)
        /\ (Badge.getScoreVariant (Finite x) = Badge.destructive
            <-> (x < 50)%Q))
  /\ Badge.getScoreVariant NaN = Badge.destructive.
Proof.
  split; [exact VariantFacts.variant_monotone|]. split; [|reflexivity].
  intros x. unfold Badge.getScoreVariant.
  destruct (ge (Finite x) (Finite 90)) eqn:E90;
    [apply VariantFacts.ge_finite_iff in E90
    |apply VariantFacts.ge_finite_false in E90;
     destruct (ge (Finite x) (Finite 70)) eqn:E70;
       [apply VariantFacts.ge_finite_iff in E70
       |apply VariantFacts.ge_finite_false in E70;
        destruct (ge (Finite x) (Finite 50)) eqn:E50;
          [apply VariantFacts.ge_finite_iff in E50
          |apply VariantFacts.ge_finite_false in E50]]];
    repeat split; intros; try discriminate; try reflexivity;
    try assumption; try lra.
Qed.

Lemma score_variant_steps_witness :
  ge (Finite 90) (Finite (179 # 2)) = true
  /\ (rank (Badge.getScoreVariant (Finite (179 # 2)))
      <= rank (Badge.getScoreVariant (Finite 90)))%nat
  /\ Badge.getScoreVariant (Finite (179 # 2)) = Badge.warning
  /\ Badge.getScoreVariant (Finite 90) = Badge.success.
Proof.
  split; [reflexivity|]. split.
  - exact (proj1 score_variant_steps (Finite (179 # 2)) (Finite 90) eq_refl).
  - split; reflexivity.
Defined.

(** X14: a whole-number score from 0 to 1000 shown without a [total], as
    every card of the dashboard shows its score, is its own percentage: in
    binary64 arithmetic [Math.round((score / 100) * 100)] is the score
    again, so the badge prints the score, coloured by the steps of the
    score itself. *)
Theorem score_badge_of_whole_score :
  forall z : Z,
    (0 <= z <= 1000)%Z ->
    Badge.ScoreBadge (of_Z z) None
    = (Badge.getScoreVariant (of_Z z), of_Z z).
Proof.
  intros z R. unfold Badge.ScoreBadge. cbv zeta.
  now rewrite (@VariantFacts.percentage_of_whole_score z R).
Qed.

Lemma score_badge_of_whole_score_witness :
  (0 <= 57 <= 1000)%Z
  /\ Badge.ScoreBadge (of_Z 57) None = (Badge.secondary, of_Z 57)
  /\ div (of_Z 57) (Finite 100) <> Finite (57 # 100).
Proof.
  assert (R : (0 <= 57 <= 1000)%Z) by lia.
  split; [exact R|]. split.
  - rewrite (score_badge_of_whole_score 57 R). reflexivity.
  - vm_compute. discriminate.
Defined.

(** X15: on ASCII names the colour of a technology badge does not depend
    on the casing of the letters A-Z, whatever the engine's [toLowerCase]
    does beyond ASCII. *)
Theorem tech_color_ignores_case :
  forall toLowerCase : string -> string,
    ascii_lowering toLowerCase ->
    forall tech tech' : string,
      ascii_text tech = true -> ascii_text tech' = true ->
      case_variant tech tech' ->
      TechBadge.getTechColor_by toLowerCase tech
      = TechBadge.getTechColor_by toLowerCase tech'.
Proof.
  intros toLowerCase L tech tech' H H' V.
  unfold TechBadge.getTechColor_by.
  now rewrite (@EngineFacts.lower_case_variant toLowerCase L tech tech' H H' V).
Qed.

Lemma tech_color_ignores_case_witness :
  (ascii_lowering Unicode.toLowerCase
   /\ ascii_text "Next.js" = true /\ ascii_text "NEXT.JS" = true
   /\ case_variant "Next.js" "NEXT.JS")
  /\ TechBadge.getTechColor_by Unicode.toLowerCase "Next.js" = TechBadge.blue
  /\ TechBadge.getTechColor_by Unicode.toLowerCase "NEXT.JS" = TechBadge.blue.
Proof.
  assert (V : case_variant "Next.js" "NEXT.JS").
  { apply StringFacts.case_variant_lower. reflexivity. }
  split.
  - split; [exact UnicodeFacts.lowering|]. repeat split; try reflexivity.
    exact V.
  - split; [vm_compute; reflexivity|].
    rewrite <- (tech_color_ignores_case Unicode.toLowerCase
                  UnicodeFacts.lowering "Next.js" "NEXT.JS"
                  eq_refl eq_refl V).
    vm_compute. reflexivity.
Defined.


(** X17: for an ASCII filter value, whatever the engine's case conversion
    does beyond ASCII, the text of the filter button is as long as the
    value, and for a value without capital letters and without spaces the
    value can be read back from it (lower the text and put the hyphen
    back); so two such values never get the same text. *)
Theorem filter_label_reads_back :
  forall toUpperCase toLowerCase : string -> string,
    ascii_uppering toUpperCase -> ascii_lowering toLowerCase ->
    forall s : string,
      ascii_text s = true ->
      String.length (filterLabel_by toUpperCase s) = String.length s
      /\ (toLowerCase s = s -> includes s " " = false ->
          JSString.replace (toLowerCase (filterLabel_by toUpperCase s)) " " "-"
          = s
          /\ forall s' : string,
               ascii_text s' = true ->
               toLowerCase s' = s' -> includes s' " " = false ->
               filterLabel_by toUpperCase s' = filterLabel_by toUpperCase s ->
               s' = s).
Proof.
  intros toUpperCase toLowerCase U L.
  assert (B : forall s, ascii_text s = true -> toLowerCase s = s ->
                        includes s " " = false ->
                        JSString.replace
                          (toLowerCase (filterLabel_by toUpperCase s)) " " "-"
                        = s).
  { intros s A Ls N.
    rewrite (@LabelEngineFacts.filterLabel_by_ascii toUpperCase s U A).
    rewrite (L _ (@LabelEngineFacts.filterLabel_ascii s A)).
    apply LabelFacts.label_back; [|exact N]. now rewrite <- (L s A). }
  intros s A. split.
  - rewrite (@LabelEngineFacts.filterLabel_by_ascii toUpperCase s U A).
    destruct s as [|c r]; [reflexivity|].
    rewrite LabelFacts.filterLabel_cons. simpl.
    now rewrite LabelFacts.replace_char_length.
  - intros Ls N. split; [now apply B|].
    intros s' A' Ls' N' E.
    rewrite <- (B s' A' Ls' N'), E. now apply B.
Qed.

Lemma filter_label_reads_back_witness :
  (ascii_uppering Unicode.toUpperCase /\ ascii_lowering Unicode.toLowerCase
   /\ ascii_text "in-progress" = true
   /\ Unicode.toLowerCase "in-progress" = "in-progress"
   /\ includes "in-progress" " " = false)
  /\ filterLabel_by Unicode.toUpperCase "in-progress" = "In progress"
  /\ JSString.replace
       (Unicode.toLowerCase
          (filterLabel_by Unicode.toUpperCase "in-progress")) " " "-"
     = "in-progress"
  /\ map (fun f => filterLabel_by Unicode.toUpperCase (filter_str f))
         [FilterAll; FilterPending; FilterInProgress; FilterCompleted]
     = ["All"; "Pending"; "In progress"; "Completed"].
Proof.
  split.
  - split; [exact UnicodeFacts.uppering|].
    split; [exact UnicodeFacts.lowering|]. repeat split.
  - split; [vm_compute; reflexivity|]. split.
    + exact (proj1 (proj2 (filter_label_reads_back
                             Unicode.toUpperCase Unicode.toLowerCase
                             UnicodeFacts.uppering UnicodeFacts.lowering
                             "in-progress" eq_refl)
                          eq_refl eq_refl)).
    + vm_compute. reflexivity.
Defined.

(** X18: an open modal names its heading consistently: [aria-labelledby]
    points to "modal-title" exactly when the heading with that id is
    rendered, the header row is left out exactly when there is neither a
    title nor a close button, and a closed modal renders nothing. *)
Theorem modal_label_never_dangles :
  forall (title : option string) (showCloseButton : bool),
    ModalView.Modal false title showCloseButton = None
    /\ exists d,
         ModalView.Modal true title showCloseButton = Some d
         /\ (ModalView.aria_labelledby d = Some "modal-title" <->
             exists h t, ModalView.header d = Some h
                         /\ ModalView.heading h = Some ("modal-title", t))
         /\ (ModalView.aria_labelledby d = None <->
             forall h, ModalView.header d = Some h ->
                       ModalView.heading h = None)
         /\ (ModalView.header d = None <->
             ModalView.truthy title = false /\ showCloseButton = false).
Proof.
  intros title showCloseButton. split; [reflexivity|].
  eexists. split; [reflexivity|].
  destruct title as [[|c t]|], showCloseButton; simpl;
    repeat split; intros;
    repeat match goal with
           | H : exists _, _ |- _ => destruct H
           | H : _ /\ _ |- _ => destruct H
           | H : Some _ = Some _ |- _ => injection H as H; subst
           | H : forall h, Some ?x = Some h -> _ |- _ => specialize (H x eq_refl)
           end;
    simpl in *; try discriminate; try reflexivity; eauto;
    try (do 2 eexists; split; reflexivity).
Qed.

(** X19: closing the modal, by its buttons or by the Escape key, leaves the
    modal closed and touches nothing else: the records, the search, the
    filter and an analysis in flight stay as they are.  Any other key does
    nothing, and so does Escape while the modal is closed. *)
Theorem closing_the_modal :
  forall (st : State) (key : string),
    (forall e, e = CloseModal \/ e = KeyDown "Escape" ->
       let st' := handle e st in
       modalOpen st' = false
       /\ selectedRecord st' = None
       /\ projects st' = projects st
       /\ isAnalyzing st' = isAnalyzing st
       /\ timers st' = timers st
       /\ searchTerm st' = searchTerm st
       /\ filterStatus st' = filterStatus st
       /\ handle e st' = st')
    /\ (key <> "Escape" -> handle (KeyDown key) st = st)
    /\ (modalOpen st = false -> handle (KeyDown key) st = st).
Proof.
  intros st key. split; [|split].
  - intros e [-> | ->]; destruct st as [ps [ref|] an term f ts];
      cbv; repeat split; reflexivity.
  - intros Hk. simpl. unfold ModalView.keydown.
    destruct (modalOpen st); [|reflexivity].
    destruct (String.eqb_spec key "Escape") as [E | _];
      [contradiction | reflexivity].
  - intros C. simpl. unfold ModalView.keydown. now rewrite C.
Qed.

Lemma closing_the_modal_witness :
  let st := handle (ViewDetails 2) initial in
  modalOpen st = true
  /\ (KeyDown "Escape" = CloseModal \/ KeyDown "Escape" = KeyDown "Escape")
  /\ modalOpen (handle (KeyDown "Escape") st) = false
  /\ ("Enter" <> "Escape" /\ handle (KeyDown "Enter") st = st).
Proof.
  intros st. split; [reflexivity|].
  assert (D : KeyDown "Escape" = CloseModal \/ KeyDown "Escape" = KeyDown "Escape")
    by (right; reflexivity).
  split; [exact D|]. split.
  - exact (proj1 (proj1 (closing_the_modal st "Enter") (KeyDown "Escape") D)).
  - assert (N : "Enter" <> "Escape") by discriminate.
    split; [exact N|].
    exact (proj1 (proj2 (closing_the_modal st "Enter")) N).
Defined.



(** X21: the modal never loses its record: if the selection refers to a
    record of the list at the start, then after any run an open modal still
    has a record of the list to show. *)
Theorem open_modal_has_a_record :
  forall (events : list Event) (st : State),
    selection_valid st ->
    let st' := run events st in
    selection_valid st'
    /\ (modalOpen st' = true -> exists p, selectedRecord st' = Some p).
Proof.
  intros events st V st'.
  pose proof (SelectionFacts.run_selection events V) as V'. fold st' in V'.
  split; [exact V'|].
  unfold modalOpen, selectedRecord.
  destruct (selectedProject st') as [ref|] eqn:S; [|discriminate].
  intros _. specialize (V' ref S).
  destruct (nth_error (projects st') ref) as [p|] eqn:N; [now exists p|].
  apply nth_error_None in N. lia.
Qed.

Lemma open_modal_has_a_record_witness :
  let events := [ViewDetails 5; TypeSearch "zebra"; PressAnalyze 6;
                 ViewDetails 9; TimerFires] in
  selection_valid initial
  /\ modalOpen (run events initial) = true
  /\ exists p, selectedRecord (run events initial) = Some p.
Proof.
  intros events.
  assert (V : selection_valid initial) by (intros ref H; discriminate H).
  split; [exact V|]. split; [reflexivity|].
  exact (proj2 (open_modal_has_a_record events initial V) eq_refl).
Defined.
